(** * Ann-Sanjivani-AI frontend: the client-side synchronisation layer

    A shallow embedding of the parts of the React frontend that keep view
    state in step with the HTTP API and the Firestore tracking store:

    - [Api]          src/frontend/src/api.ts        (request interceptor)
    - [Appwrite]     src/frontend/src/lib/appwrite.ts (cloud logout)
    - [AuthStore]    src/frontend/src/store.ts      (login / logout)
    - [Firebase]     src/frontend/src/lib/firebase.ts
                     (merge-upserts and the driver GPS simulation)
    - [SurplusPage]  src/frontend/src/pages/SurplusPage.tsx (status polling)
    - [Dashboard]    the Dashboard page (fetchData, timers, visibility)
    - [TrackingPage] src/frontend/src/pages/TrackingPage.tsx (fetchData)

    JavaScript numbers are IEEE 754 binary64 values, so they are modelled by
    Rocq's primitive floats, whose operations are the same binary64
    operations.  Asynchronous code is modelled by the events the browser's
    event loop delivers (timer ticks, settled promises, visibility changes),
    each handled by one total step function.

    Part I holds the model, Part II the properties. *)

From stdpp Require Import gmap strings list.
From Stdlib Require Import Ascii Floats ZArith QArith Qabs Qminmax.

#[local] Set Warnings "-inexact-float".
#[local] Open Scope string_scope.

(** * Part I: the model *)

(** ** JavaScript control flow: completions and promises *)

Module Js.

(** An error value ([Error], [TypeError], an axios or SDK failure). *)
Definition error := string.

(** How a synchronous block ends: normally with a value, or by throwing. *)
Inductive completion (A : Type) : Type :=
| Normal (a : A)
| Throw (e : error).
Arguments Normal {A} a.
Arguments Throw {A} e.

(** How a promise settles. *)
Inductive settled (A : Type) : Type :=
| Fulfilled (a : A)
| Rejected (e : error).
Arguments Fulfilled {A} a.
Arguments Rejected {A} e.

Definition bind {A B} (c : completion A) (k : A -> completion B) : completion B :=
  match c with
  | Normal a => k a
  | Throw e => Throw e
  end.

(** [try { body } catch (e) { handler e }] *)
Definition try_catch {A} (body : completion A) (handler : error -> completion A)
  : completion A :=
  match body with
  | Normal a => Normal a
  | Throw e => handler e
  end.

(** [await p] inside a [try]: a rejection is thrown at the await. *)
Definition await {A} (p : settled A) : completion A :=
  match p with
  | Fulfilled a => Normal a
  | Rejected e => Throw e
  end.

(** The promise an [async] function returns: it rejects exactly when the
    body throws. *)
Definition async {A} (body : completion A) : settled A :=
  match body with
  | Normal a => Fulfilled a
  | Throw e => Rejected e
  end.

(** [p.catch(handler)] *)
Definition catch {A} (p : settled A) (handler : error -> settled A) : settled A :=
  match p with
  | Fulfilled a => Fulfilled a
  | Rejected e => handler e
  end.

(** [Promise.all([p, q])]: fulfils with both values, rejects with the first
    rejection. *)
Definition all2 {A B} (p : settled A) (q : settled B) : settled (A * B) :=
  match p, q with
  | Fulfilled a, Fulfilled b => Fulfilled (a, b)
  | Rejected e, _ => Rejected e
  | _, Rejected e => Rejected e
  end.

(** Truthiness of a [string | null]: [null] and the empty string are falsy. *)
Definition truthy_string (v : option string) : bool :=
  match v with
  | Some s => negb (String.eqb s "")
  | None => false
  end.

(** Statements that change a state [S] and may throw: the state reached is
    kept when the block throws (a [catch] does not roll anything back). *)
Definition stmt (S A : Type) : Type := S -> S * completion A.

Definition ret {S A} (a : A) : stmt S A := fun s => (s, Normal a).

Definition bind_stmt {S A B} (c : stmt S A) (k : A -> stmt S B) : stmt S B :=
  fun s => match c s with
           | (s', Normal a) => k a s'
           | (s', Throw e) => (s', Throw e)
           end.

Definition lift {S A} (c : completion A) : stmt S A := fun s => (s, c).

(** [try { body } catch (e) { handler e }] over statements. *)
Definition try_stmt {S A} (body : stmt S A) (handler : error -> stmt S A)
  : stmt S A :=
  fun s => match body s with
           | (s', Normal a) => (s', Normal a)
           | (s', Throw e) => handler e s'
           end.

(** [try { body } finally { cleanup }]: the clean-up runs either way, and
    what the body threw is thrown again after it. *)
Definition finally_stmt {S A} (body : stmt S A) (cleanup : stmt S unit)
  : stmt S A :=
  fun s => match body s with
           | (s', c) =>
               match cleanup s' with
               | (s'', Normal _) => (s'', c)
               | (s'', Throw e) => (s'', Throw e)
               end
           end.

(** Running an [async] function whose awaits have all settled: the state it
    leaves and the promise it returns. *)
Definition async_stmt {S A} (body : stmt S A) (s : S) : S * settled A :=
  match body s with
  | (s', c) => (s', async c)
  end.

End Js.

Notation "'let*' x ':=' c 'in' k" := (Js.bind c (fun x => k))
  (at level 10, x name, c at level 100, k at level 200, only parsing).
Notation "'do*' x ':=' c 'in' k" := (Js.bind_stmt c (fun x => k))
  (at level 10, x name, c at level 100, k at level 200, only parsing).

(** ** window.localStorage *)

Module LocalStorage.

Abbreviation t := (gmap string string).

Definition getItem (ls : t) (key : string) : option string := ls !! key.
Definition setItem (ls : t) (key value : string) : t := <[key := value]> ls.
Definition removeItem (ls : t) (key : string) : t := delete key ls.

End LocalStorage.

(** ** src/frontend/src/api.ts *)

Module Api.
Import Js.

Inductive http_method := GET | POST | PATCH.

Record request_config := {
  baseURL : string;
  url : string;
  method : http_method;
  headers : gmap string string;
}.

(** [axios.create({ baseURL: `${API_BASE}/api/v1`,
                    headers: { 'Content-Type': 'application/json' } })] *)
Definition default_headers : gmap string string :=
  {[ "Content-Type" := "application/json" ]}.

Definition create_config (API_BASE : string) (m : http_method) (path : string)
  : request_config :=
  {| baseURL := API_BASE +:+ "/api/v1";
     url := path;
     method := m;
     headers := default_headers |}.

(** The request interceptor:
<<
    const token = localStorage.getItem('token');
    if (token) { config.headers.Authorization = `Bearer ${token}`; }
    return config;
>> *)
Definition auth_interceptor (ls : LocalStorage.t) (config : request_config)
  : request_config :=
  let token := LocalStorage.getItem ls "token" in
  match token with
  | Some tok =>
      if truthy_string token then
        {| baseURL := baseURL config;
           url := url config;
           method := method config;
           headers := <[ "Authorization" := "Bearer " +:+ tok ]> (headers config) |}
      else config
  | None => config
  end.

(** A call such as [api.get(path)]: the configuration handed to the network
    layer is the instance's defaults after the interceptor ran, with the
    storage as it is when the call is made. *)
Definition request (API_BASE : string) (ls : LocalStorage.t)
    (m : http_method) (path : string) : request_config :=
  auth_interceptor ls (create_config API_BASE m path).

Definition authorization (c : request_config) : option string :=
  headers c !! "Authorization".

End Api.

(** ** src/frontend/src/lib/appwrite.ts (the part the auth store calls) *)

Module Appwrite.
Import Js.

(** What [account.deleteSession('current')] of the Appwrite SDK does: it
    returns a promise that fulfils or rejects, or it throws before
    returning one. *)
Inductive sdk_call :=
| SdkFulfils
| SdkRejects (e : error)
| SdkThrows (e : error).

Definition deleteSession (o : sdk_call) : completion (settled unit) :=
  match o with
  | SdkFulfils => Normal (Fulfilled tt)
  | SdkRejects e => Normal (Rejected e)
  | SdkThrows e => Throw e
  end.

(** [appwriteAuth.logout]:
<<
    async logout() {
      try { await account.deleteSession('current'); return true; }
      catch { return false; }
    }
>> *)
Definition logout (o : sdk_call) : settled bool :=
  async (try_catch
           (let* p := deleteSession o in let* _ := await p in Normal true)
           (fun _ => Normal false)).

End Appwrite.

(** ** src/frontend/src/store.ts *)

Module AuthStore.
Import Js.

Inductive role := restaurant | ngo | driver | admin.

Record User := {
  id : Z;
  email : string;
  full_name : string;
  phone : option string;
  user_role : role;
  is_active : bool;
  avatar_url : option string;
  created_at : string;
}.

(** [RoleDashboardData] is an open record ([[key: string]: any]); the store
    only passes it along. *)
Definition RoleDashboardData := gmap string string.

Record AuthState := {
  user : option User;
  token : option string;
  isAuthenticated : bool;
  roleDashboardData : option RoleDashboardData;
}.

(** The browser state the store's actions touch: persistent storage, the
    zustand state, and the rejections no handler took. *)
Record world := {
  storage : LocalStorage.t;
  auth : AuthState;
  unhandled : list error;
}.

(** The state the store is created with. *)
Definition initial (ls : LocalStorage.t) : AuthState :=
  {| user := None;
     token := LocalStorage.getItem ls "token";
     isAuthenticated := truthy_string (LocalStorage.getItem ls "token");
     roleDashboardData := None |}.

(** [localStorage.setItem('token', token)] *)
Definition store_token (tok : string) : stmt world unit :=
  fun w => ({| storage := LocalStorage.setItem (storage w) "token" tok;
               auth := auth w;
               unhandled := unhandled w |}, Normal tt).

(** [localStorage.removeItem('token')] *)
Definition remove_token : stmt world unit :=
  fun w => ({| storage := LocalStorage.removeItem (storage w) "token";
               auth := auth w;
               unhandled := unhandled w |}, Normal tt).

(** zustand's [set(partial)]: the fields named replace the state's. *)
Definition set (f : AuthState -> AuthState) : stmt world unit :=
  fun w => ({| storage := storage w;
               auth := f (auth w);
               unhandled := unhandled w |}, Normal tt).

(** A promise nobody awaits: a rejection left on it is reported as
    unhandled. *)
Definition detach {A} (p : settled A) : stmt world unit :=
  fun w => match p with
           | Fulfilled _ => (w, Normal tt)
           | Rejected e =>
               ({| storage := storage w;
                   auth := auth w;
                   unhandled := e :: unhandled w |}, Normal tt)
           end.

(** [login: (user, token) => { localStorage.setItem('token', token);
                               set({ user, token, isAuthenticated: true }); }] *)
Definition login (u : User) (tok : string) : stmt world unit :=
  do* _ := store_token tok in
  set (fun a => {| user := Some u;
                   token := Some tok;
                   isAuthenticated := true;
                   roleDashboardData := roleDashboardData a |}).

(** [logout], for any behaviour [cloud] of the call [appwriteAuth.logout()]:
<<
    localStorage.removeItem('token');
    appwriteAuth.logout().catch(() => {});
    set({ user: null, token: null, isAuthenticated: false, roleDashboardData: null });
>> *)
Definition logout_with (cloud : completion (settled bool)) : stmt world unit :=
  do* _ := remove_token in
  do* p := lift cloud in
  do* _ := detach (catch p (fun _ => Fulfilled false)) in
  set (fun _ => {| user := None;
                   token := None;
                   isAuthenticated := false;
                   roleDashboardData := None |}).

(** [logout] as the store defines it: [appwriteAuth.logout] is an [async]
    function, so calling it returns a promise whatever its body does. *)
Definition logout (o : Appwrite.sdk_call) : stmt world unit :=
  logout_with (Normal (Appwrite.logout o)).

(** What [logout] must leave behind, from the world [w] it started in. *)
Definition logged_out (w w' : world) : Prop :=
  LocalStorage.getItem (storage w') "token" = None
  /\ storage w' = LocalStorage.removeItem (storage w) "token"
  /\ user (auth w') = None
  /\ token (auth w') = None
  /\ roleDashboardData (auth w') = None
  /\ isAuthenticated (auth w') = false
  /\ unhandled w' = unhandled w.

End AuthStore.

(** ** The Firestore SDK, as far as firebase.ts uses it *)

Module Firestore.
Import Js.

(** Field values.  [ServerTimestamp] is the sentinel [serverTimestamp()]
    returns: it only occurs in data handed to a write, and the server puts
    its own commit time in its place. *)
Inductive value :=
| VNumber (x : float)
| VString (s : string)
| VBool (b : bool)
| VTimestamp (t : Z)
| ServerTimestamp.

Abbreviation fields := (gmap string value).

(** A document reference: the segments of the document's path, collection
    names and document ids in turn ([driver_locations/d1] is
    [["driver_locations"; "d1"]]). *)
Definition doc_ref : Type := list string.

(** The database: documents by reference. *)
Abbreviation db := (gmap (list string) (gmap string value)).

(** What the backend does with one write: it commits it at server time
    [now], or the write fails ([setDoc] throws, or its promise rejects). *)
Inductive write_outcome :=
| Committed (now : Z)
| Failed (e : error).

(** [path.split('/')] *)
Fixpoint split_slash (path : string) : list string :=
  match path with
  | EmptyString => [""]
  | String c rest =>
      if Ascii.eqb c "/"%char then "" :: split_slash rest
      else match split_slash rest with
           | segment :: segments => String c segment :: segments
           | [] => [String c ""]
           end
  end.

(** [path.indexOf('//') >= 0] *)
Fixpoint has_double_slash (path : string) : bool :=
  match path with
  | String a (String b _ as rest) =>
      (Ascii.eqb a "/"%char && Ascii.eqb b "/"%char) || has_double_slash rest
  | _ => false
  end.

(** One argument of the SDK's [ResourcePath.fromString]: a path with an
    empty inner segment is refused, empty segments at either end are
    dropped. *)
Definition segments_of (path : string) : completion (list string) :=
  if has_double_slash path then Throw "invalid-argument"
  else Normal (filter (fun segment => segment <> "") (split_slash path)).

(** Modelled from the spec: [doc] is the Firebase SDK's, not this
    repository's.  The spec keys the store by collection name and document
    id; which strings the SDK takes for a document id, and which document
    they name, follows the SDK's path rule.  [doc(firestore, col, id)]
    throws on an empty [col], reads [col] and [id] as '/'-separated paths
    (a non-string [id], a missing one included, throws there), and throws
    unless the segments of both together are even in number.  So an id
    without '/' names the document [col/id]; the empty id and an id such as
    "a/b" are refused; "a/" names the document "a", and "a/b/c" a document
    of a subcollection. *)
Definition doc (col : string) (id : option value) : completion doc_ref :=
  if String.eqb col "" then Throw "invalid-argument"
  else
    let* collection := segments_of col in
    let* document := match id with
                     | Some (VString s) => segments_of s
                     | _ => Throw "TypeError"
                     end in
    if Nat.even (length (collection ++ document))
    then Normal (collection ++ document)%list
    else Throw "invalid-argument".

(** A document id in the spec's sense: one path segment, that is, a
    non-empty string without '/'. *)
Fixpoint has_slash (s : string) : bool :=
  match s with
  | EmptyString => false
  | String c rest => Ascii.eqb c "/"%char || has_slash rest
  end.

Definition is_document_id (s : string) : bool :=
  negb (String.eqb s "") && negb (has_slash s).

Definition resolve (now : Z) (v : value) : value :=
  match v with
  | ServerTimestamp => VTimestamp now
  | _ => v
  end.

(** Modelled from the spec: [setDoc] is the Firebase SDK's, not this
    repository's.  The spec's publish/subscribe contract gives its meaning:
    with [{ merge: true }] a write creates the document if absent and
    otherwise overlays the fields it provides, leaving the others untouched
    (missing fields preserved, present fields overwritten, server timestamp
    injected); without the option the document is replaced wholesale. *)
Definition setDoc (ref : doc_ref) (data : fields) (merge : bool)
    (o : write_outcome) : stmt db unit :=
  fun d =>
    match o with
    | Committed now =>
        let old := if merge then default ∅ (d !! ref) else ∅ in
        (<[ ref := (resolve now <$> data) ∪ old ]> d, Normal tt)
    | Failed e => (d, Throw e)
    end.

End Firestore.

(** ** src/frontend/src/lib/firebase.ts *)

Module Firebase.
Import Js Firestore.
#[local] Open Scope float_scope.

Definition DRIVER_LOCATIONS_COL : string := "driver_locations".
Definition ACTIVE_DELIVERIES_COL : string := "active_deliveries".

(** The object literal [{ ...data, updated_at: serverTimestamp() }]: the
    later key wins over one of the same name in [data]. *)
Definition with_updated_at (data : fields) : fields :=
  <[ "updated_at" := ServerTimestamp ]> data.

(** The body the two upserts share, for the collection and the field that
    holds the document id:
<<
    try {
      const docRef = doc(firestore, COL, data.<id_field>);
      await setDoc(docRef, { ...data, updated_at: serverTimestamp() }, { merge: true });
      return true;
    } catch (error) {
      console.error(..., error);
      return false;
    }
>>
    The state is the database; [console.error] writes to no state the
    program reads. *)
Definition upsert_body (col id_field : string) (data : fields)
    (o : write_outcome) : stmt db bool :=
  try_stmt
    (do* docRef := lift (doc col (data !! id_field)) in
     do* _ := setDoc docRef (with_updated_at data) true o in
     ret true)
    (fun _ => ret false).

(** [firebaseTracking.updateDriverLocation(data)] *)
Definition updateDriverLocation (data : fields) (o : write_outcome) (d : db)
  : db * settled bool :=
  async_stmt (upsert_body DRIVER_LOCATIONS_COL "driver_id" data o) d.

(** [firebaseTracking.upsertActiveDelivery(data)] *)
Definition upsertActiveDelivery (data : fields) (o : write_outcome) (d : db)
  : db * settled bool :=
  async_stmt (upsert_body ACTIVE_DELIVERIES_COL "delivery_id" data o) d.

(** The contract of an upsert [f] on collection [col] keyed by [id_field]:
    it returns a promise that fulfils with a boolean, true exactly when the
    reference could be built and the write was committed; then the stored
    document carries the server's commit time as [updated_at]; otherwise
    the database is as before. *)
Definition upsert_contract (col id_field : string)
    (f : fields -> write_outcome -> db -> db * settled bool) : Prop :=
  forall data o d,
    exists d' b,
      f data o d = (d', Fulfilled b)
      /\ (b = true <->
          exists ref now, doc col (data !! id_field) = Normal ref
                          /\ o = Committed now)
      /\ (forall now, b = true -> o = Committed now ->
          exists ref stored,
            doc col (data !! id_field) = Normal ref
            /\ d' !! ref = Some stored
            /\ stored !! "updated_at" = Some (VTimestamp now))
      /\ (b = false -> d' = d).

(** The two writes of the merge example, through an upsert keyed by
    [id_field]: [{lat: 10, lng: 20}], then [{heading: 90}]. *)
Definition position_write (id_field id : string) : fields :=
  {[ id_field := VString id; "lat" := VNumber 10; "lng" := VNumber 20 ]}.
Definition heading_write (id_field id : string) : fields :=
  {[ id_field := VString id; "heading" := VNumber 90 ]}.

(** The stored document holds [lat: 10], [lng: 20] and [heading: 90]. *)
Definition holds_all_three (stored : option fields) : Prop :=
  exists fs, stored = Some fs
             /\ fs !! "lat" = Some (VNumber 10)
             /\ fs !! "lng" = Some (VNumber 20)
             /\ fs !! "heading" = Some (VNumber 90).

(** *** startDriverSimulation *)

(** The argument of [updateDriverLocation] the simulation builds. *)
Record DriverUpdate := {
  driver_id : string;
  driver_name : string;
  lat : float;
  lng : float;
  heading : float;
  speed : float;
  vehicle_type : string;
  is_available : bool;
  current_order_id : string;
}.

(** The same object as Firestore fields. *)
Definition to_fields (u : DriverUpdate) : fields :=
  {[ "driver_id" := VString (driver_id u);
     "driver_name" := VString (driver_name u);
     "lat" := VNumber (lat u);
     "lng" := VNumber (lng u);
     "heading" := VNumber (heading u);
     "speed" := VNumber (speed u);
     "vehicle_type" := VString (vehicle_type u);
     "is_available" := VBool (is_available u);
     "current_order_id" := VString (current_order_id u) ]}.

(** [Math.PI] *)
Definition PI : float := 0x1.921fb54442d18p+1.

(** [progress >= 1] and [progress < 1] on numbers. *)
Definition ge (x y : float) : bool := y <=? x.
Definition lt (x y : float) : bool := x <? y.

(** The closure's state: the variable [progress] and whether the interval
    is still set. *)
Record sim := {
  progress : float;
  interval : bool;
}.

(** [let progress = 0; const interval = setInterval(..., 10000)] *)
Definition start : sim := {| progress := 0; interval := true |}.

(** The head of the interval's callback:
<<
    progress += 0.02;
    if (progress >= 1) { clearInterval(interval); progress = 1; }
>> *)
Definition advance (s : sim) : sim :=
  let progress1 := progress s + 0.02 in
  if ge progress1 1
  then {| progress := 1; interval := false |}
  else {| progress := progress1; interval := interval s |}.

(** [heading >= 0 ? heading : heading + 360] *)
Definition normalize (h : float) : float :=
  if ge h 0 then h else h + 360.

(** [pickup + (dropoff - pickup) * progress] *)
Definition lerp (pickup dropoff p : float) : float :=
  pickup + (dropoff - pickup) * p.

Section Simulation.

(** [Math.atan2], which the engine's math library provides. *)
Variable atan2 : float -> float -> float.

(** The parameters of one call of [startDriverSimulation]. *)
Variables (driverId driverName : string).
Variables (pickupLat pickupLng dropoffLat dropoffLng : float).

(** [const heading = Math.atan2(dropoffLng - pickupLng, dropoffLat - pickupLat)
                     * (180 / Math.PI)] *)
Definition raw_heading : float :=
  atan2 (dropoffLng - pickupLng) (dropoffLat - pickupLat) * (180 / PI).

(** One run of the interval's callback; [random] is what [Math.random()]
    returns if this run calls it.  The result is the closure's new state
    and the update handed to [updateDriverLocation].
<<
    progress += 0.02;
    if (progress >= 1) { clearInterval(interval); progress = 1; }
    const lat = pickupLat + (dropoffLat - pickupLat) * progress;
    const lng = pickupLng + (dropoffLng - pickupLng) * progress;
    const heading = ...;
    await firebaseTracking.updateDriverLocation({
      driver_id: driverId, driver_name: driverName, lat, lng,
      heading: heading >= 0 ? heading : heading + 360,
      speed: progress < 1 ? 25 + Math.random() * 10 : 0,
      vehicle_type: 'bike', is_available: false,
      current_order_id: `order_${driverId}` });
>> *)
Definition callback (random : float) (s : sim) : sim * DriverUpdate :=
  let s' := advance s in
  (s', {| driver_id := driverId;
          driver_name := driverName;
          lat := lerp pickupLat dropoffLat (progress s');
          lng := lerp pickupLng dropoffLng (progress s');
          heading := normalize raw_heading;
          speed := if lt (progress s') 1 then 25 + random * 10 else 0;
          vehicle_type := "bike";
          is_available := false;
          current_order_id := "order_" +:+ driverId |}).

(** A timer tick: the browser runs the callback only while the interval is
    set. *)
Definition tick (random : float) (s : sim) : sim * option DriverUpdate :=
  if interval s then
    let '(s', u) := callback random s in (s', Some u)
  else (s, None).

(** The disposer the function returns: [() => clearInterval(interval)]. *)
Definition dispose (s : sim) : sim :=
  {| progress := progress s; interval := false |}.

(** The ticks of a run, one per element of [randoms]: the closure's last
    state and the updates emitted, oldest first. *)
Fixpoint run (randoms : list float) (s : sim) : sim * list DriverUpdate :=
  match randoms with
  | [] => (s, [])
  | r :: rest =>
      let '(s1, out) := tick r s in
      let '(s2, outs) := run rest s1 in
      (s2, match out with Some u => u :: outs | None => outs end)
  end.

End Simulation.

(** The closure's state after [n] timer ticks: it depends on nothing but
    the number of ticks. *)
Fixpoint after (n : nat) : sim :=
  match n with
  | O => start
  | S k => let s := after k in if interval s then advance s else s
  end.

(** The rational number a finite float stands for (0 for infinities and
    NaN, which the simulation's arithmetic on finite inputs never meets in
    the checks below). *)
Definition to_Q (x : float) : Q :=
  match Prim2SF x with
  | S754_finite neg m e =>
      let mag := (if (0 <=? e)%Z
                  then inject_Z (Z.pos m * 2 ^ e)
                  else Qmake (Z.pos m) (2 ^ Z.to_pos (- e))%positive) in
      if neg then Qopp mag else mag
  | _ => 0%Q
  end.

Definition is_finite (x : float) : bool :=
  match Prim2SF x with
  | S754_finite _ _ _ | S754_zero _ => true
  | _ => false
  end.

(** [x] is a finite number within [eps] of the rational [q]. *)
Definition near (eps : Q) (x : float) (q : Q) : bool :=
  is_finite x && Qle_bool (Qabs (to_Q x - q)) eps.

(** The check made on tick [n] of a run from (0,0) to (10,10): [progress]
    is min(0.02 n, 1) within 1e-15, and the coordinate 10 times that within
    1e-14. *)
Definition tick_checked (n : nat) : bool :=
  let p := progress (after n) in
  let ideal := Qmin (Z.of_nat n # 50) 1 in
  near (1 # 10 ^ 15) p ideal
  && near (1 # 10 ^ 14) (lerp 0 10 p) (10 * ideal).

End Firebase.

(** ** src/frontend/src/pages/SurplusPage.tsx: polling the created order *)

Module SurplusPage.
Import Js.

(** [data.status === 'delivered' || data.status === 'cancelled'
     || data.status === 'expired'] *)
Definition is_terminal (status : string) : bool :=
  String.eqb status "delivered" || String.eqb status "cancelled"
  || String.eqb status "expired".

(** The state the polling effect reads and writes: the [orderStage] cell,
    whether the interval it set is still set, and how many times it called
    [surplusAPI.get]. *)
Record watcher := {
  orderStage : string;
  interval : bool;
  polls : nat;
}.

Definition setOrderStage (status : string) : stmt watcher unit :=
  fun w => ({| orderStage := status; interval := interval w; polls := polls w |},
            Normal tt).

Definition clearInterval : stmt watcher unit :=
  fun w => ({| orderStage := orderStage w; interval := false; polls := polls w |},
            Normal tt).

(** [createdOrder?.id] as a condition: no order, no id and the id 0 are
    falsy. *)
Definition truthy_id (createdOrder_id : option Z) : bool :=
  match createdOrder_id with
  | Some i => negb (i =? 0)%Z
  | None => false
  end.

(** The effect, run when [createdOrder] is set:
<<
    if (!createdOrder?.id) return;
    const interval = setInterval(async () => { ... }, 5000);
>> *)
Definition effect (createdOrder_id : option Z) (stage : string) : watcher :=
  {| orderStage := stage; interval := truthy_id createdOrder_id; polls := 0 |}.

(** The answer to one [surplusAPI.get(createdOrder.id)]: the promise
    fulfils with a response whose [data] has a [status], or whose [data] is
    null ([None]), or it rejects. *)
Definition response : Type := settled (option string).

(** [data.status]: reading a property of null throws. *)
Definition status_of (data : option string) : completion string :=
  match data with
  | Some status => Normal status
  | None => Throw "TypeError"
  end.

(** The callback from its [await] on, once the request has settled:
<<
    try {
      const { data } = await surplusAPI.get(createdOrder.id);
      setOrderStage(data.status);
      if (data.status === 'delivered' || ...) { clearInterval(interval); }
    } catch { /* ignore */ }
>> *)
Definition on_response (r : response) : stmt watcher unit :=
  try_stmt
    (do* data := lift (await r) in
     do* status := lift (status_of data) in
     do* _ := setOrderStage status in
     if is_terminal status then clearInterval else ret tt)
    (fun _ => ret tt).

(** What the event loop delivers to the effect: the interval fires (the
    callback starts and issues its request), a request settles (the callback
    resumes), or the effect is cleaned up (unmount, or [createdOrder]
    changed). *)
Inductive event :=
| Tick
| Response (r : response)
| Cleanup.

(** A cleared interval never runs its callback again. *)
Definition step (w : watcher) (e : event) : watcher :=
  match e with
  | Tick =>
      if interval w
      then {| orderStage := orderStage w; interval := true; polls := S (polls w) |}
      else w
  | Response r => fst (on_response r w)
  | Cleanup => fst (clearInterval w)
  end.

Definition run (w : watcher) (trace : list event) : watcher :=
  fold_left step trace w.

(** Polls answered one by one, each before the interval fires again. *)
Definition answered (statuses : list string) : list event :=
  flat_map (fun s => [Tick; Response (Fulfilled (Some s))]) statuses.

End SurplusPage.

(** ** View cells of the pages that start from static data *)

Module View.

(** What a state cell initialised with a module-level constant holds: that
    constant itself ([Static]: [MOCK_ORDERS], [RESTAURANTS_FALLBACK], ...),
    or a value built from a response. *)
Inductive cell (A : Type) : Type :=
| Static
| Fetched (a : A).
Arguments Static {A}.
Arguments Fetched {A} a.


(** A response body that should be an array. *)
Inductive payload (A : Type) : Type :=
| Null
| Undefined
| Array (items : list A)
| Other.
Arguments Null {A}.
Arguments Undefined {A}.
Arguments Array {A} items.
Arguments Other {A}.

End View.

(** ** Rows of a response array *)

Module Rows.
Import Js.

(** [xs.map((x, i) => f(i, x))] for a callback that reads properties of its
    row: a row of the array may be null (or undefined), and reading a
    property of it throws, which ends the map. *)
Fixpoint imap_rows {A B} (f : nat -> A -> B) (xs : list (option A))
  : completion (list B) :=
  match xs with
  | [] => Normal []
  | Some x :: rest =>
      let* ys := imap_rows (fun i => f (S i)) rest in
      Normal (f 0%nat x :: ys)
  | None :: _ => Throw "TypeError"
  end.

(** [xs.map((x) => f(x))] for such a callback. *)
Definition map_rows {A B} (f : A -> B) (xs : list (option A))
  : completion (list B) :=
  imap_rows (fun _ => f) xs.

(** No row of the array is null. *)
Definition all_objects {A} (xs : list (option A)) : bool :=
  forallb (fun x => match x with Some _ => true | None => false end) xs.

(** The rows that are objects, in order. *)
Definition objects {A} (xs : list (option A)) : list A := omap id xs.

(** An array that may be missing: no row of it is null. *)
Definition well_formed {A} (xs : option (list (option A))) : bool :=
  match xs with
  | Some l => all_objects l
  | None => true
  end.

End Rows.

(** ** The Dashboard page *)

Module Dashboard.
Import Js View.

Section Page.

(** The row types of the two endpoints; the page only stores them. *)
Context {Impact Order : Type}.

Abbreviation RoleData := AuthStore.RoleDashboardData.

(** The component's state cells, and the auth store's [roleDashboardData]
    that [fetchData] also writes. *)
Record state := {
  impact : cell Impact;
  orders : cell (list Order);
  loading : bool;
  currentTime : Z;
  usingRealOrders : bool;
  roleDashboardData : option RoleData;
}.

(** [useState(MOCK_IMPACT)], [useState(MOCK_ORDERS)], [useState(true)],
    [useState(new Date())], [useState(false)]. *)
Definition initial (now : Z) (role : option RoleData) : state :=
  {| impact := Static;
     orders := Static;
     loading := true;
     currentTime := now;
     usingRealOrders := false;
     roleDashboardData := role |}.

Definition setImpact (v : cell Impact) : stmt state unit :=
  fun s => ({| impact := v; orders := orders s; loading := loading s;
               currentTime := currentTime s;
               usingRealOrders := usingRealOrders s;
               roleDashboardData := roleDashboardData s |}, Normal tt).

Definition setOrders (v : list Order) : stmt state unit :=
  fun s => ({| impact := impact s; orders := Fetched v; loading := loading s;
               currentTime := currentTime s;
               usingRealOrders := usingRealOrders s;
               roleDashboardData := roleDashboardData s |}, Normal tt).

Definition setLoading (v : bool) : stmt state unit :=
  fun s => ({| impact := impact s; orders := orders s; loading := v;
               currentTime := currentTime s;
               usingRealOrders := usingRealOrders s;
               roleDashboardData := roleDashboardData s |}, Normal tt).

Definition setCurrentTime (v : Z) : stmt state unit :=
  fun s => ({| impact := impact s; orders := orders s; loading := loading s;
               currentTime := v;
               usingRealOrders := usingRealOrders s;
               roleDashboardData := roleDashboardData s |}, Normal tt).

Definition setUsingRealOrders (v : bool) : stmt state unit :=
  fun s => ({| impact := impact s; orders := orders s; loading := loading s;
               currentTime := currentTime s;
               usingRealOrders := v;
               roleDashboardData := roleDashboardData s |}, Normal tt).

Definition setRoleDashboardData (v : RoleData) : stmt state unit :=
  fun s => ({| impact := impact s; orders := orders s; loading := loading s;
               currentTime := currentTime s;
               usingRealOrders := usingRealOrders s;
               roleDashboardData := Some v |}, Normal tt).

(** How the four requests one [fetchData] can make settle.  [list] is only
    asked when [myOrders] rejected.  [role]'s body is [None] when it is
    falsy. *)
Record responses := {
  impact_res : settled Impact;
  myOrders_res : settled (payload Order);
  list_res : settled (payload Order);
  role_res : settled (option RoleData);
}.

(** [impactAPI.dashboard().catch(() => ({ data: MOCK_IMPACT }))] *)
Definition impact_guarded (r : responses) : settled (cell Impact) :=
  catch (match impact_res r with
         | Fulfilled d => Fulfilled (Fetched d)
         | Rejected e => Rejected e
         end)
        (fun _ => Fulfilled Static).

(** [surplusAPI.myOrders(undefined, 20).catch(() =>
       surplusAPI.list(undefined, 20).catch(() => ({ data: null })))] *)
Definition orders_guarded (r : responses) : settled (payload Order) :=
  catch (myOrders_res r)
        (fun _ => catch (list_res r) (fun _ => Fulfilled Null)).

(** [authAPI.roleData().catch(() => ({ data: null }))] *)
Definition role_guarded (r : responses) : settled (option RoleData) :=
  catch (role_res r) (fun _ => Fulfilled None).

(** [if (ordersRes.data !== null && ordersRes.data !== undefined) {
       setOrders(Array.isArray(ordersRes.data) ? ordersRes.data : []);
       setUsingRealOrders(true); }] *)
Definition use_orders (data : payload Order) : stmt state unit :=
  match data with
  | Null | Undefined => ret tt
  | Array items => do* _ := setOrders items in setUsingRealOrders true
  | Other => do* _ := setOrders [] in setUsingRealOrders true
  end.

(** [fetchData(isInitial)] from its [await] on, once its requests settled:
<<
    try {
      const [impactRes, ordersRes, roleRes] = await Promise.all([...]);
      setImpact(impactRes.data);
      if (ordersRes.data !== null && ...) { ... }
      if (roleRes.data) setRoleDashboardData(roleRes.data);
    } catch {
      // Use mock data only on first load if API completely fails
    } finally {
      if (isInitial) setLoading(false);
    }
>> *)
Definition fetchData (isInitial : bool) (r : responses) : stmt state unit :=
  finally_stmt
    (try_stmt
       (do* results :=
          lift (await (all2 (impact_guarded r)
                            (all2 (orders_guarded r) (role_guarded r)))) in
        let '(impactRes, (ordersRes, roleRes)) := results in
        do* _ := setImpact impactRes in
        do* _ := use_orders ordersRes in
        match roleRes with
        | Some data => setRoleDashboardData data
        | None => ret tt
        end)
       (fun _ => ret tt))
    (if isInitial then setLoading false else ret tt).

(** The mounted component: its state, the [fetchData] calls still waiting
    for their requests (each with its [isInitial] argument, oldest first),
    and what the mount effect has registered. *)
Record page := {
  view : state;
  in_flight : list bool;
  refreshInterval : bool;
  clockInterval : bool;
  visibilityListener : bool;
}.

Definition unmounted (now : Z) (role : option RoleData) : page :=
  {| view := initial now role;
     in_flight := [];
     refreshInterval := false;
     clockInterval := false;
     visibilityListener := false |}.

(** What the event loop delivers to the component. *)
Inductive event :=
| Mount
| RefreshTick
| ClockTick (now : Z)
| VisibilityChange (visible : bool)
| Settle (i : nat) (r : responses)
| Unmount.

(** A call of [fetchData]: the requests go out, the rest runs when they
    have settled. *)
Definition call_fetchData (isInitial : bool) (p : page) : page :=
  {| view := view p;
     in_flight := (in_flight p ++ [isInitial])%list;
     refreshInterval := refreshInterval p;
     clockInterval := clockInterval p;
     visibilityListener := visibilityListener p |}.

(** The mount effect and its cleanup:
<<
    fetchData(true);
    const refreshInterval = setInterval(() => fetchData(false), 15000);
    const clockInterval = setInterval(() => setCurrentTime(new Date()), 1000);
    const handleVisibility = () => {
      if (document.visibilityState === 'visible') fetchData(false);
    };
    document.addEventListener('visibilitychange', handleVisibility);
    return () => { clearInterval(refreshInterval); clearInterval(clockInterval);
                   document.removeEventListener('visibilitychange', handleVisibility); };
>> *)
Definition step (p : page) (e : event) : page :=
  match e with
  | Mount =>
      let p1 := call_fetchData true p in
      {| view := view p1;
         in_flight := in_flight p1;
         refreshInterval := true;
         clockInterval := true;
         visibilityListener := true |}
  | RefreshTick =>
      if refreshInterval p then call_fetchData false p else p
  | ClockTick now =>
      if clockInterval p
      then {| view := fst (setCurrentTime now (view p));
              in_flight := in_flight p;
              refreshInterval := refreshInterval p;
              clockInterval := clockInterval p;
              visibilityListener := visibilityListener p |}
      else p
  | VisibilityChange visible =>
      if visibilityListener p
      then (if visible then call_fetchData false p else p)
      else p
  | Settle i r =>
      match in_flight p !! i with
      | Some isInitial =>
          {| view := fst (fetchData isInitial r (view p));
             in_flight := delete i (in_flight p);
             refreshInterval := refreshInterval p;
             clockInterval := clockInterval p;
             visibilityListener := visibilityListener p |}
      | None => p
      end
  | Unmount =>
      {| view := view p;
         in_flight := in_flight p;
         refreshInterval := false;
         clockInterval := false;
         visibilityListener := false |}
  end.

Definition run (p : page) (trace : list event) : page :=
  fold_left step trace p.

(** The orders call of a fetch returned a body the page accepts as real
    data (anything but null and undefined, an empty array included). *)
Definition orders_arrived (r : responses) : bool :=
  match orders_guarded r with
  | Fulfilled (Array _) | Fulfilled Other => true
  | _ => false
  end.


End Page.
Arguments state : clear implicits.
Arguments responses : clear implicits.
Arguments page : clear implicits.
Arguments event : clear implicits.

End Dashboard.

(** ** src/frontend/src/pages/TrackingPage.tsx *)

Module TrackingPage.
Import Js View Rows.

Section Page.

(** Rows as the two endpoints send them, and as the page shows them. *)
Context {Restaurant RawNgo Ngo RawDriver Driver Job Delivery : Type}.

(** The three row callbacks, on a row that is an object:
    [(n) => ({ ...n, people: n.people_served || n.capacity_kg * 2 })] *)
Variable ngo_row : RawNgo -> Ngo.
(** [(d) => ({ ...d, name: d.name || `Driver #${d.id}` })] *)
Variable driver_row : RawDriver -> Driver.
(** [(j) => ({ id: j.id, from: j.pickup?.name || 'Restaurant', ...,
               progress: statusProgressMap[j.status] || 10 })] *)
Variable delivery_row : Job -> Delivery.

(** The body of [trackingAPI.allLocations()]; a field is [None] when it is
    missing or null.  The rows of [ngos] and [drivers] go through a
    callback that reads their properties, so a null row matters there. *)
Record locations := {
  restaurants : option (list Restaurant);
  ngos : option (list (option RawNgo));
  drivers : option (list (option RawDriver));
}.

(** How the two requests of one [fetchData] settle; a body is [None] when
    it is null or undefined. *)
Record responses := {
  locations_res : settled (option locations);
  jobs_res : settled (option (list (option Job)));
}.

Record state := {
  RESTAURANTS : cell (list Restaurant);
  NGOS : cell (list Ngo);
  DRIVERS : cell (list Driver);
  ACTIVE_DELIVERIES : cell (list Delivery);
  isLive : bool;
  tick : nat;
}.

(** [useState(RESTAURANTS_FALLBACK)], [useState(NGOS_FALLBACK)],
    [useState(DRIVERS_FALLBACK)], [useState(DELIVERIES_FALLBACK)],
    [useState(true)], [useState(0)]. *)
Definition initial : state :=
  {| RESTAURANTS := Static;
     NGOS := Static;
     DRIVERS := Static;
     ACTIVE_DELIVERIES := Static;
     isLive := true;
     tick := 0 |}.

Definition setRestaurants (v : list Restaurant) : stmt state unit :=
  fun s => ({| RESTAURANTS := Fetched v; NGOS := NGOS s; DRIVERS := DRIVERS s;
               ACTIVE_DELIVERIES := ACTIVE_DELIVERIES s;
               isLive := isLive s; tick := tick s |}, Normal tt).

Definition setNGOs (v : list Ngo) : stmt state unit :=
  fun s => ({| RESTAURANTS := RESTAURANTS s; NGOS := Fetched v;
               DRIVERS := DRIVERS s;
               ACTIVE_DELIVERIES := ACTIVE_DELIVERIES s;
               isLive := isLive s; tick := tick s |}, Normal tt).

Definition setDrivers (v : list Driver) : stmt state unit :=
  fun s => ({| RESTAURANTS := RESTAURANTS s; NGOS := NGOS s;
               DRIVERS := Fetched v;
               ACTIVE_DELIVERIES := ACTIVE_DELIVERIES s;
               isLive := isLive s; tick := tick s |}, Normal tt).

Definition setDeliveries (v : list Delivery) : stmt state unit :=
  fun s => ({| RESTAURANTS := RESTAURANTS s; NGOS := NGOS s;
               DRIVERS := DRIVERS s;
               ACTIVE_DELIVERIES := Fetched v;
               isLive := isLive s; tick := tick s |}, Normal tt).

Definition setIsLive (v : bool) : stmt state unit :=
  fun s => ({| RESTAURANTS := RESTAURANTS s; NGOS := NGOS s;
               DRIVERS := DRIVERS s;
               ACTIVE_DELIVERIES := ACTIVE_DELIVERIES s;
               isLive := v; tick := tick s |}, Normal tt).

(** [setTick((t) => t + 1)] *)
Definition bumpTick : stmt state unit :=
  fun s => ({| RESTAURANTS := RESTAURANTS s; NGOS := NGOS s;
               DRIVERS := DRIVERS s;
               ACTIVE_DELIVERIES := ACTIVE_DELIVERIES s;
               isLive := isLive s; tick := S (tick s) |}, Normal tt).

(** [if (xs?.length) set(f(xs))]: nothing happens for a missing or an empty
    array. *)
Definition when_nonempty {A} (xs : option (list A))
    (set : list A -> stmt state unit) : stmt state unit :=
  match xs with
  | Some (x :: rest) => set (x :: rest)
  | Some [] | None => ret tt
  end.

(** [locRes.data] read as an object: [loc.restaurants] throws on null. *)
Definition object_of {A} (data : option A) : completion A :=
  match data with
  | Some o => Normal o
  | None => Throw "TypeError"
  end.

(** [fetchData] from its [await] on, once both requests settled:
<<
    try {
      const [locRes, jobsRes] = await Promise.all([...]);
      const loc = locRes.data;
      if (loc.restaurants?.length) setRestaurants(loc.restaurants);
      if (loc.ngos?.length) setNGOs(loc.ngos.map(...));
      if (loc.drivers?.length) setDrivers(loc.drivers.map(...));
      const jobs = jobsRes.data;
      if (jobs?.length) { setDeliveries(jobs.map(...)); }
      setIsLive(true);
    } catch {
      // Keep fallback data; mark offline if repeated failures
    }
>> *)
Definition fetchData (r : responses) : stmt state unit :=
  try_stmt
    (do* results := lift (await (all2 (locations_res r) (jobs_res r))) in
     let '(locData, jobs) := results in
     do* loc := lift (object_of locData) in
     do* _ := when_nonempty (restaurants loc) setRestaurants in
     do* _ := when_nonempty (ngos loc)
                (fun l => do* rows := lift (map_rows ngo_row l) in
                          setNGOs rows) in
     do* _ := when_nonempty (drivers loc)
                (fun l => do* rows := lift (map_rows driver_row l) in
                          setDrivers rows) in
     do* _ := when_nonempty jobs
                (fun l => do* rows := lift (map_rows delivery_row l) in
                          setDeliveries rows) in
     setIsLive true)
    (fun _ => ret tt).

(** The mounted component: its state, how many [fetchData] calls wait for
    their requests, and the two intervals. *)
Record page := {
  view : state;
  in_flight : nat;
  refreshInterval : bool;
  tickInterval : bool;
}.

Definition unmounted : page :=
  {| view := initial; in_flight := 0;
     refreshInterval := false; tickInterval := false |}.

Inductive event :=
| Mount
| RefreshTick
| AnimationTick
| Settle (r : responses)
| Unmount.

Definition call_fetchData (p : page) : page :=
  {| view := view p; in_flight := S (in_flight p);
     refreshInterval := refreshInterval p; tickInterval := tickInterval p |}.

(** The two effects:
<<
    fetchData();
    const interval = setInterval(fetchData, 10000);
    return () => clearInterval(interval);
>>
    and [setInterval(() => setTick((t) => t + 1), 3000)] with its cleanup. *)
Definition step (p : page) (e : event) : page :=
  match e with
  | Mount =>
      {| view := view p; in_flight := S (in_flight p);
         refreshInterval := true; tickInterval := true |}
  | RefreshTick =>
      if refreshInterval p then call_fetchData p else p
  | AnimationTick =>
      if tickInterval p
      then {| view := fst (bumpTick (view p)); in_flight := in_flight p;
              refreshInterval := refreshInterval p;
              tickInterval := tickInterval p |}
      else p
  | Settle r =>
      match in_flight p with
      | S n =>
          {| view := fst (fetchData r (view p)); in_flight := n;
             refreshInterval := refreshInterval p;
             tickInterval := tickInterval p |}
      | O => p
      end
  | Unmount =>
      {| view := view p; in_flight := in_flight p;
         refreshInterval := false; tickInterval := false |}
  end.

Definition run (p : page) (trace : list event) : page :=
  fold_left step trace p.

(** Both requests of a fetch returned and the locations body is an object:
    the fetch succeeded, whatever the arrays hold. *)
Definition succeeded (r : responses) : bool :=
  match locations_res r, jobs_res r with
  | Fulfilled (Some _), Fulfilled _ => true
  | _, _ => false
  end.

(** What a successful fetch leaves in a cell: the rows built from a
    non-empty array, or what the cell held. *)
Definition refreshed {A B} (f : list A -> list B) (xs : option (list A))
    (held : cell (list B)) : cell (list B) :=
  match xs with
  | Some (x :: rest) => Fetched (f (x :: rest))
  | Some [] | None => held
  end.



End Page.
Arguments state : clear implicits.
Arguments locations : clear implicits.
Arguments responses : clear implicits.
Arguments page : clear implicits.
Arguments event : clear implicits.

End TrackingPage.

(** ** store.ts: the remaining actions; App.tsx: the route guard and the
    user loader *)

Module AppGuard.
Import Js AuthStore.

#[global] Instance role_eq_dec : EqDecision role.
Proof. solve_decision. Defined.

(** [setUser: (user) => set({ user })] *)
Definition setUser (u : User) : stmt world unit :=
  set (fun a => {| user := Some u;
                   token := token a;
                   isAuthenticated := isAuthenticated a;
                   roleDashboardData := roleDashboardData a |}).

(** [setRoleDashboardData: (data) => set({ roleDashboardData: data })] *)
Definition setRoleDashboardData (data : RoleDashboardData) : stmt world unit :=
  set (fun a => {| user := user a;
                   token := token a;
                   isAuthenticated := isAuthenticated a;
                   roleDashboardData := Some data |}).

(** [hasRole: (...roles) => { const user = get().user;
                              if (!user) return false;
                              return roles.includes(user.role); }] *)
Definition hasRole (roles : list role) (a : AuthState) : bool :=
  match user a with
  | None => false
  | Some u => bool_decide (user_role u ∈ roles)
  end.

(** What a guarded route element renders. *)
Inductive element :=
| Navigate (to : string)
| Children.

(** [ProtectedRoute]; [allowedRoles] is [None] when the prop is left out:
<<
    if (!isAuthenticated) return <Navigate to="/login" replace />;
    if (allowedRoles && user && !allowedRoles.includes(user.role))
      return <Navigate to="/dashboard" replace />;
    return <>{children}</>;
>> *)
Definition ProtectedRoute (allowedRoles : option (list role)) (a : AuthState)
  : element :=
  if negb (isAuthenticated a) then Navigate "/login"
  else match allowedRoles, user a with
       | Some roles, Some u =>
           if negb (bool_decide (user_role u ∈ roles))
           then Navigate "/dashboard"
           else Children
       | _, _ => Children
       end.

(** The guarded routes of [App] with their [allowedRoles]. *)
Definition routes : list (string * option (list role)) :=
  [ ("/dashboard", None);
    ("/surplus", Some [restaurant; admin]);
    ("/tracking", None);
    ("/impact", None);
    ("/ai-demo", None) ].

(** [AuthLoader]'s effect, with the way [authAPI.me()] settles:
<<
    if (isAuthenticated && !user) {
      authAPI.me().then((res) => setUser(res.data)).catch(() => logout());
    }
>> *)
Definition AuthLoader (me : settled User) (cloud : Appwrite.sdk_call)
  : stmt world unit :=
  fun w =>
    if isAuthenticated (auth w) && negb (bool_decide (is_Some (user (auth w))))
    then match me with
         | Fulfilled u => setUser u w
         | Rejected _ => logout cloud w
         end
    else (w, Normal tt).

(** The world a page load starts from: the store is created from what
    persistent storage holds. *)
Definition page_load (ls : LocalStorage.t) : world :=
  {| storage := ls; auth := initial ls; unhandled := [] |}.

End AppGuard.

(** ** appwrite.ts: register and login *)

Module AppwriteAuth.
Import Js.

(** The SDK calls made so far, oldest first. *)
Definition calls : Type := list string.

(** One awaited SDK call: it is made, then it settles. *)
Definition call {A} (name : string) (outcome : settled A) : stmt calls A :=
  fun log => ((log ++ [name])%list, await outcome).

(** What [register] and [login] return. *)
Inductive result (A : Type) : Type :=
| Success (a : A)
| Failure (message : error).
Arguments Success {A} a.
Arguments Failure {A} message.

(** [appwriteAuth.register]:
<<
    try {
      const user = await account.create(ID.unique(), email, password, name);
      await account.createEmailPasswordSession(email, password);
      await account.updatePrefs({ role, phone: '' });
      return { success: true, user, role };
    } catch (error) {
      console.error('Appwrite register error:', error);
      return { success: false, error: error.message };
    }
>> *)
Definition register {U} (role : string)
    (create : settled U) (session prefs : settled unit)
    (log : calls) : calls * settled (result (U * string)) :=
  async_stmt
    (try_stmt
       (do* user := call "account.create" create in
        do* _ := call "account.createEmailPasswordSession" session in
        do* _ := call "account.updatePrefs" prefs in
        ret (Success (user, role)))
       (fun e => ret (Failure e)))
    log.

(** [prefs.role || 'restaurant'] *)
Definition role_or_default (role : option string) : string :=
  match role with
  | Some r => if truthy_string role then r else "restaurant"
  | None => "restaurant"
  end.

(** [appwriteAuth.login]:
<<
    try {
      const session = await account.createEmailPasswordSession(email, password);
      const user = await account.get();
      const prefs = await account.getPrefs();
      return { success: true, user, role: prefs.role || 'restaurant', session };
    } catch (error) {
      console.error('Appwrite login error:', error);
      return { success: false, error: error.message };
    }
>>
    [prefs] is the [role] preference, [None] when it is not set. *)
Definition login {S U} (session : settled S) (get : settled U)
    (prefs : settled (option string))
    (log : calls) : calls * settled (result (U * string * S)) :=
  async_stmt
    (try_stmt
       (do* s := call "account.createEmailPasswordSession" session in
        do* user := call "account.get" get in
        do* p := call "account.getPrefs" prefs in
        ret (Success (user, role_or_default p, s)))
       (fun e => ret (Failure e)))
    log.

(** The calls a run of three awaited calls makes: each one only when all
    before it fulfilled. *)
Definition calls_made {A B C} (names : string * string * string)
    (a : settled A) (b : settled B) (c : settled C) : list string :=
  let '(n1, n2, n3) := names in
  match a, b with
  | Rejected _, _ => [n1]
  | Fulfilled _, Rejected _ => [n1; n2]
  | Fulfilled _, Fulfilled _ => [n1; n2; n3]
  end.

End AppwriteAuth.

(** ** firebase.ts: the snapshot listeners *)

Module Subscriptions.
Import Js Firestore Firebase.

(** The documents of the top-level collection [col], each with its id, in
    the order the source holds them (no order is promised); documents of
    subcollections are not among them. *)
Definition collection_docs (col : string) (d : db) : list (string * fields) :=
  omap (fun entry : list string * fields =>
          match fst entry with
          | [c; id] => if String.eqb c col then Some (id, snd entry) else None
          | _ => None
          end)
       (map_to_list d).

(** What [subscribeToDriverLocations] hands its callback for the database
    [d]: [drivers.push({ ...doc.data() })] for every document. *)
Definition driver_locations_snapshot (d : db) : list fields :=
  snd <$> collection_docs DRIVER_LOCATIONS_COL d.

(** What [subscribeToDriverLocation(driverId, callback)] hands its callback:
    [snapshot.exists() ? snapshot.data() : null]; [doc] throws to the caller
    on an id it refuses. *)
Definition driver_location_snapshot (driverId : string) (d : db)
  : completion (option fields) :=
  let* docRef := doc DRIVER_LOCATIONS_COL (Some (VString driverId)) in
  Normal (d !! docRef).

(** [where('status', 'in', ['assigned', 'picked_up', 'in_transit'])] *)
Definition ACTIVE_STATUSES : list string :=
  ["assigned"; "picked_up"; "in_transit"].

Definition status_in (allowed : list string) (fs : fields) : bool :=
  match fs !! "status" with
  | Some (VString s) => bool_decide (s ∈ allowed)
  | _ => false
  end.

(** [{ delivery_id: doc.id, ...doc.data() }]: a [delivery_id] of the data
    wins over the document id. *)
Definition with_delivery_id (id : string) (fs : fields) : fields :=
  fs ∪ {[ "delivery_id" := VString id ]}.

(** What [subscribeToActiveDeliveries] hands its callback. *)
Definition active_deliveries_snapshot (d : db) : list fields :=
  (fun entry : string * fields => with_delivery_id (fst entry) (snd entry))
    <$> filter (fun entry : string * fields =>
                  status_in ACTIVE_STATUSES (snd entry) = true)
               (collection_docs ACTIVE_DELIVERIES_COL d).

(** [snapshot.id]: the last segment of the reference. *)
Definition id_of (ref : doc_ref) : string := default "" (last ref).

(** What [subscribeToDelivery(deliveryId, callback)] hands its callback:
    [{ delivery_id: snapshot.id, ...snapshot.data() }], or null. *)
Definition delivery_snapshot (deliveryId : string) (d : db)
  : completion (option fields) :=
  let* docRef := doc ACTIVE_DELIVERIES_COL (Some (VString deliveryId)) in
  Normal (with_delivery_id (id_of docRef) <$> d !! docRef).

(** Every document under collection [col] holds under [id_field] an id
    that [doc] resolves to that very document. *)
Definition keyed (col id_field : string) (d : db) : Prop :=
  forall (ref : doc_ref) (fs : fields),
    d !! ref = Some fs -> head ref = Some col ->
    doc col (fs !! id_field) = Normal ref.

(** One call of either upsert. *)
Inductive write :=
| DriverLocation (data : fields) (o : write_outcome)
| ActiveDelivery (data : fields) (o : write_outcome).

Definition apply_write (d : db) (w : write) : db :=
  match w with
  | DriverLocation data o => fst (updateDriverLocation data o d)
  | ActiveDelivery data o => fst (upsertActiveDelivery data o d)
  end.

End Subscriptions.

(** ** SurplusPage.tsx: the form wizard, the order history and the stage
    tracker *)

Module SurplusForm.
Import Js View.
#[local] Open Scope float_scope.

(** Truthiness of a number: 0, -0 and NaN are falsy. *)
Definition truthy_number (x : float) : bool :=
  negb (PrimFloat.eqb x 0 || negb (PrimFloat.eqb x x)).

Record Form := {
  food_description : string;
  quantity_kg : float;
  food_category : string;
  expiry_hours : float;
  photo_url : string;
}.

(** [{ food_description: '', quantity_kg: 0, food_category: 'mixed',
       expiry_hours: 2, photo_url: '' }] *)
Definition empty_form : Form :=
  {| food_description := ""; quantity_kg := 0; food_category := "mixed";
     expiry_hours := 2; photo_url := "" |}.

Record Preset := {
  name : string;
  qty : float;
  category : string;
}.

Definition FOOD_PRESETS : list Preset :=
  [ {| name := "Dal Makhani + Rice"; qty := 25; category := "curry" |};
    {| name := "Paneer Butter Masala + Naan"; qty := 15; category := "veg" |};
    {| name := "Chicken Biryani"; qty := 20; category := "rice" |};
    {| name := "Mixed Veg Thali"; qty := 30; category := "mixed" |};
    {| name := "Idli Sambar"; qty := 18; category := "veg" |};
    {| name := "Pav Bhaji"; qty := 12; category := "snacks" |};
    {| name := "Chole Bhature"; qty := 20; category := "curry" |};
    {| name := "Gulab Jamun + Kheer"; qty := 10; category := "sweets" |} ].

(** The body of a [surplusAPI.create] request;
    [photo_url: form.photo_url || undefined]. *)
Record create_payload := {
  sent_description : string;
  sent_category : string;
  sent_quantity : float;
  sent_expiry : float;
  sent_photo : option string;
}.

Definition payload_of (f : Form) : create_payload :=
  {| sent_description := food_description f;
     sent_category := food_category f;
     sent_quantity := quantity_kg f;
     sent_expiry := expiry_hours f;
     sent_photo := if truthy_string (Some (photo_url f))
                   then Some (photo_url f) else None |}.

(** The part of a created order the page reads: [data.id], [data.status]. *)
Record created := {
  created_id : option Z;
  created_status : option string;
}.

(** [ORDER_STAGES.map(s => s.key)] *)
Definition ORDER_STAGES : list string :=
  ["pending"; "assigned"; "picked_up"; "in_transit"; "delivered"].

(** [Array.prototype.findIndex] with [s => s.key === orderStage]: the first
    index that matches, counted from [from], or -1. *)
Fixpoint findIndex_from (from : Z) (keys : list string) (orderStage : string) : Z :=
  match keys with
  | [] => (-1)%Z
  | key :: rest =>
      if String.eqb key orderStage then from
      else findIndex_from (from + 1)%Z rest orderStage
  end.

Definition stageIdx (orderStage : string) : Z :=
  findIndex_from 0%Z ORDER_STAGES orderStage.

(** [const isComplete = thisIdx < stageIdx; const isCurrent = thisIdx === stageIdx] *)
Definition isComplete (orderStage : string) (thisIdx : nat) : bool :=
  (Z.of_nat thisIdx <? stageIdx orderStage)%Z.
Definition isCurrent (orderStage : string) (thisIdx : nat) : bool :=
  (Z.of_nat thisIdx =? stageIdx orderStage)%Z.

Section Page.

(** The prediction object and the history rows; the page only stores them. *)
Context {Prediction Order : Type}.

(** The component's state cells, and what it has in flight: the create
    requests sent (oldest first), and how many create, prediction and
    history requests have not settled yet. *)
Record page := {
  step : nat;
  form : Form;
  prediction : option Prediction;
  submitting : bool;
  submitted : bool;
  createdOrder : option created;
  orderStage : string;
  myOrders : list Order;
  ordersLoading : bool;
  sent : list create_payload;
  creates_in_flight : nat;
  predictions_in_flight : nat;
  orders_in_flight : nat;
}.

Definition initial : page :=
  {| step := 1; form := empty_form; prediction := None;
     submitting := false; submitted := false; createdOrder := None;
     orderStage := "pending"; myOrders := []; ordersLoading := false;
     sent := []; creates_in_flight := 0; predictions_in_flight := 0;
     orders_in_flight := 0 |}.

Definition setStep (v : nat) (p : page) : page :=
  {| step := v; form := form p; prediction := prediction p;
     submitting := submitting p; submitted := submitted p;
     createdOrder := createdOrder p; orderStage := orderStage p;
     myOrders := myOrders p; ordersLoading := ordersLoading p;
     sent := sent p; creates_in_flight := creates_in_flight p;
     predictions_in_flight := predictions_in_flight p;
     orders_in_flight := orders_in_flight p |}.

Definition setForm (v : Form) (p : page) : page :=
  {| step := step p; form := v; prediction := prediction p;
     submitting := submitting p; submitted := submitted p;
     createdOrder := createdOrder p; orderStage := orderStage p;
     myOrders := myOrders p; ordersLoading := ordersLoading p;
     sent := sent p; creates_in_flight := creates_in_flight p;
     predictions_in_flight := predictions_in_flight p;
     orders_in_flight := orders_in_flight p |}.

Definition setPrediction (v : option Prediction) (p : page) : page :=
  {| step := step p; form := form p; prediction := v;
     submitting := submitting p; submitted := submitted p;
     createdOrder := createdOrder p; orderStage := orderStage p;
     myOrders := myOrders p; ordersLoading := ordersLoading p;
     sent := sent p; creates_in_flight := creates_in_flight p;
     predictions_in_flight := predictions_in_flight p;
     orders_in_flight := orders_in_flight p |}.

Definition setSubmitting (v : bool) (p : page) : page :=
  {| step := step p; form := form p; prediction := prediction p;
     submitting := v; submitted := submitted p;
     createdOrder := createdOrder p; orderStage := orderStage p;
     myOrders := myOrders p; ordersLoading := ordersLoading p;
     sent := sent p; creates_in_flight := creates_in_flight p;
     predictions_in_flight := predictions_in_flight p;
     orders_in_flight := orders_in_flight p |}.

Definition setSubmitted (v : bool) (p : page) : page :=
  {| step := step p; form := form p; prediction := prediction p;
     submitting := submitting p; submitted := v;
     createdOrder := createdOrder p; orderStage := orderStage p;
     myOrders := myOrders p; ordersLoading := ordersLoading p;
     sent := sent p; creates_in_flight := creates_in_flight p;
     predictions_in_flight := predictions_in_flight p;
     orders_in_flight := orders_in_flight p |}.

Definition setCreatedOrder (v : option created) (p : page) : page :=
  {| step := step p; form := form p; prediction := prediction p;
     submitting := submitting p; submitted := submitted p;
     createdOrder := v; orderStage := orderStage p;
     myOrders := myOrders p; ordersLoading := ordersLoading p;
     sent := sent p; creates_in_flight := creates_in_flight p;
     predictions_in_flight := predictions_in_flight p;
     orders_in_flight := orders_in_flight p |}.

Definition setOrderStage (v : string) (p : page) : page :=
  {| step := step p; form := form p; prediction := prediction p;
     submitting := submitting p; submitted := submitted p;
     createdOrder := createdOrder p; orderStage := v;
     myOrders := myOrders p; ordersLoading := ordersLoading p;
     sent := sent p; creates_in_flight := creates_in_flight p;
     predictions_in_flight := predictions_in_flight p;
     orders_in_flight := orders_in_flight p |}.

Definition setMyOrders (v : list Order) (p : page) : page :=
  {| step := step p; form := form p; prediction := prediction p;
     submitting := submitting p; submitted := submitted p;
     createdOrder := createdOrder p; orderStage := orderStage p;
     myOrders := v; ordersLoading := ordersLoading p;
     sent := sent p; creates_in_flight := creates_in_flight p;
     predictions_in_flight := predictions_in_flight p;
     orders_in_flight := orders_in_flight p |}.

Definition setOrdersLoading (v : bool) (p : page) : page :=
  {| step := step p; form := form p; prediction := prediction p;
     submitting := submitting p; submitted := submitted p;
     createdOrder := createdOrder p; orderStage := orderStage p;
     myOrders := myOrders p; ordersLoading := v;
     sent := sent p; creates_in_flight := creates_in_flight p;
     predictions_in_flight := predictions_in_flight p;
     orders_in_flight := orders_in_flight p |}.

(** The requests going out and coming back. *)
Definition send_create (body : create_payload) (p : page) : page :=
  {| step := step p; form := form p; prediction := prediction p;
     submitting := submitting p; submitted := submitted p;
     createdOrder := createdOrder p; orderStage := orderStage p;
     myOrders := myOrders p; ordersLoading := ordersLoading p;
     sent := (sent p ++ [body])%list;
     creates_in_flight := S (creates_in_flight p);
     predictions_in_flight := predictions_in_flight p;
     orders_in_flight := orders_in_flight p |}.

Definition in_flight (creates predictions orders : nat) (p : page) : page :=
  {| step := step p; form := form p; prediction := prediction p;
     submitting := submitting p; submitted := submitted p;
     createdOrder := createdOrder p; orderStage := orderStage p;
     myOrders := myOrders p; ordersLoading := ordersLoading p;
     sent := sent p; creates_in_flight := creates;
     predictions_in_flight := predictions;
     orders_in_flight := orders |}.

(** [fetchMyOrders] up to its [await]: [setOrdersLoading(true)] and the
    request goes out. *)
Definition fetchMyOrders_call (p : page) : page :=
  let p1 := setOrdersLoading true p in
  in_flight (creates_in_flight p1) (predictions_in_flight p1)
            (S (orders_in_flight p1)) p1.

(** How the requests of one [fetchMyOrders] settle; [list] is only asked
    when [myOrders] rejected. *)
Record orders_responses := {
  myOrders_res : settled (payload Order);
  list_res : settled (payload Order);
}.

Definition run_setter (f : page -> page) : stmt page unit :=
  fun p => (f p, Normal tt).

(** [fetchMyOrders] from its [await] on:
<<
    try {
      const res = await surplusAPI.myOrders(undefined, 50).catch(() =>
        surplusAPI.list(undefined, 50));
      if (Array.isArray(res.data)) setMyOrders(res.data);
    } catch { /* ignore */ }
    finally { setOrdersLoading(false); }
>> *)
Definition fetchMyOrders_settle (r : orders_responses) : stmt page unit :=
  finally_stmt
    (try_stmt
       (do* data := lift (await (catch (myOrders_res r) (fun _ => list_res r))) in
        match data with
        | Array items => run_setter (setMyOrders items)
        | Null | Undefined | Other => ret tt
        end)
       (fun _ => ret tt))
    (run_setter (setOrdersLoading false)).

(** [handlePreset(preset)] up to its [await]: the form takes the preset and
    the prediction request goes out. *)
Definition handlePreset_call (preset : Preset) (p : page) : page :=
  let p1 := setForm {| food_description := name preset;
                       quantity_kg := qty preset;
                       food_category := category preset;
                       expiry_hours := expiry_hours (form p);
                       photo_url := photo_url (form p) |} p in
  in_flight (creates_in_flight p1) (S (predictions_in_flight p1))
            (orders_in_flight p1) p1.

(** [handlePreset] from its [await] on: the prediction of the API, or the
    local estimate when the call failed. *)
Definition handlePreset_settle (r : settled Prediction) (estimate : Prediction)
  : stmt page unit :=
  try_stmt
    (do* pred := lift (await r) in run_setter (setPrediction (Some pred)))
    (fun _ => run_setter (setPrediction (Some estimate))).

(** The first step's button:
<<
    if (!form.food_description || !form.quantity_kg) {
      toast.error(t('surplus.fillRequired')); return; }
    if (!prediction) handlePreset({ name: form.food_description,
                                    qty: form.quantity_kg, category: 'mixed', ... });
    setStep(2);
>> *)
Definition filled (f : Form) : bool :=
  truthy_string (Some (food_description f)) && truthy_number (quantity_kg f).

Definition clickPredict (p : page) : page :=
  if negb (filled (form p)) then p
  else
    let p1 := match prediction p with
              | Some _ => p
              | None => handlePreset_call
                          {| name := food_description (form p);
                             qty := quantity_kg (form p);
                             category := "mixed" |} p
              end in
    setStep 2 p1.

(** [handleSubmit] up to its [await]. *)
Definition handleSubmit_call (p : page) : page :=
  send_create (payload_of (form p)) (setSubmitting true p).

(** [data.status]: reading a property of null throws. *)
Definition status_of (data : option created) : completion (option string) :=
  match data with
  | Some c => Normal (created_status c)
  | None => Throw "TypeError"
  end.

(** [data.status || 'pending'] *)
Definition stage_or_pending (status : option string) : string :=
  match status with
  | Some s => if truthy_string status then s else "pending"
  | None => "pending"
  end.

(** [handleSubmit] from its [await] on:
<<
    try {
      const { data } = await surplusAPI.create({...});
      setCreatedOrder(data);
      setOrderStage(data.status || 'pending');
      setSubmitted(true);
      toast.success(...);
      fetchMyOrders();
    } catch (err) { toast.error(...); }
    finally { setSubmitting(false); }
>> *)
Definition handleSubmit_settle (r : settled (option created)) : stmt page unit :=
  finally_stmt
    (try_stmt
       (do* data := lift (await r) in
        do* _ := run_setter (setCreatedOrder data) in
        do* status := lift (status_of data) in
        do* _ := run_setter (setOrderStage (stage_or_pending status)) in
        do* _ := run_setter (setSubmitted true) in
        run_setter fetchMyOrders_call)
       (fun _ => ret tt))
    (run_setter (setSubmitting false)).

(** The "mark another" button of the success card. *)
Definition markAnother (p : page) : page :=
  setPrediction None
    (setForm empty_form
       (setOrderStage "pending"
          (setCreatedOrder None (setStep 1 (setSubmitted false p))))).

(** What the user and the event loop deliver to the page. *)
Inductive event :=
| Mount
| EditDescription (text : string)
| EditQuantity (value : float)
| EditExpiry (value : float)
| ClickPreset (i : nat)
| ClickPredict
| PredictionSettles (r : settled Prediction) (estimate : Prediction)
| ClickBack
| ClickConfirm
| ClickSubmit
| CreateSettles (r : settled (option created))
| ClickMarkAnother
| ClickRefresh
| OrdersSettle (r : orders_responses).

(** Which card is rendered. *)
Definition shows_step (n : nat) (p : page) : bool :=
  Nat.eqb (step p) n && negb (submitted p).

(** A control only answers while it is rendered and enabled; a request only
    settles while it is in flight. *)
Definition handle (p : page) (e : event) : page :=
  match e with
  | Mount => fetchMyOrders_call p
  | EditDescription text =>
      if shows_step 1 p
      then setForm {| food_description := text;
                      quantity_kg := quantity_kg (form p);
                      food_category := food_category (form p);
                      expiry_hours := expiry_hours (form p);
                      photo_url := photo_url (form p) |} p
      else p
  | EditQuantity value =>
      if shows_step 1 p
      then setForm {| food_description := food_description (form p);
                      quantity_kg := value;
                      food_category := food_category (form p);
                      expiry_hours := expiry_hours (form p);
                      photo_url := photo_url (form p) |} p
      else p
  | EditExpiry value =>
      if shows_step 1 p
      then setForm {| food_description := food_description (form p);
                      quantity_kg := quantity_kg (form p);
                      food_category := food_category (form p);
                      expiry_hours := value;
                      photo_url := photo_url (form p) |} p
      else p
  | ClickPreset i =>
      if shows_step 1 p
      then match FOOD_PRESETS !! i with
           | Some preset => handlePreset_call preset p
           | None => p
           end
      else p
  | ClickPredict => if shows_step 1 p then clickPredict p else p
  | PredictionSettles r estimate =>
      match predictions_in_flight p with
      | S n =>
          let p1 := fst (handlePreset_settle r estimate p) in
          in_flight (creates_in_flight p1) n (orders_in_flight p1) p1
      | O => p
      end
  | ClickBack =>
      if shows_step 2 p
      then match prediction p with
           | Some _ => setStep 1 p
           | None => p
           end
      else if shows_step 3 p then setStep 2 p
      else p
  | ClickConfirm =>
      if shows_step 2 p
      then match prediction p with
           | Some _ => setStep 3 p
           | None => p
           end
      else p
  | ClickSubmit =>
      if shows_step 3 p && negb (submitting p)
      then handleSubmit_call p
      else p
  | CreateSettles r =>
      match creates_in_flight p with
      | S n =>
          let p1 := in_flight n (predictions_in_flight p) (orders_in_flight p) p in
          fst (handleSubmit_settle r p1)
      | O => p
      end
  | ClickMarkAnother => if submitted p then markAnother p else p
  | ClickRefresh => if ordersLoading p then p else fetchMyOrders_call p
  | OrdersSettle r =>
      match orders_in_flight p with
      | S n =>
          let p1 := in_flight (creates_in_flight p) (predictions_in_flight p) n p in
          fst (fetchMyOrders_settle r p1)
      | O => p
      end
  end.

Definition run (p : page) (trace : list event) : page :=
  fold_left handle trace p.

(** A create request is acceptable to the first step's check. *)
Definition acceptable (body : create_payload) : Prop :=
  sent_description body <> "" /\ truthy_number (sent_quantity body) = true.

(** What the page keeps true: the step is 1, 2 or 3; past the first step
    the form passes the first step's check; every create request sent did
    too; a create request is in flight exactly while [submitting]; and
    [ordersLoading] is only set while a history request is in flight. *)
Definition wizard_ok (p : page) : Prop :=
  (step p = 1 \/ (step p = 2 \/ step p = 3) /\ filled (form p) = true)%nat
  /\ Forall acceptable (sent p)
  /\ creates_in_flight p = (if submitting p then 1 else 0)%nat
  /\ (ordersLoading p = true -> (1 <= orders_in_flight p)%nat).

End Page.
Arguments page : clear implicits.
Arguments event : clear implicits.
Arguments orders_responses : clear implicits.

End SurplusForm.

(** ** The Dashboard's derived lists *)

Module DashboardLists.

Section Lists.
Context {Order : Type}.

(** [o.status] *)
Variable status : Order -> string.

(** [['delivered', 'cancelled'].includes(o.status)] *)
Definition closed (o : Order) : bool :=
  String.eqb (status o) "delivered" || String.eqb (status o) "cancelled".

(** [orders.filter((o) => !['delivered', 'cancelled'].includes(o.status))] *)
Definition activeOrders (orders : list Order) : list Order :=
  filter (fun o => closed o = false) orders.

(** [orders.filter((o) => o.status === 'delivered').length] *)
Definition completedToday (orders : list Order) : nat :=
  length (filter (fun o => String.eqb (status o) "delivered" = true) orders).

End Lists.

End DashboardLists.

(** ** The order watcher: what stops it *)

Module SurplusWatch.
Import Js SurplusPage.

(** The events that clear the interval: a clean-up, and a response with a
    terminal status. *)
Definition stops (e : event) : bool :=
  match e with
  | Cleanup => true
  | Response (Fulfilled (Some status)) => is_terminal status
  | _ => false
  end.

#[global] Instance event_eq_tick (e : event) : Decision (e = Tick).
Proof. destruct e; [left; reflexivity | right; discriminate | right; discriminate]. Defined.

(** How many times the interval fired in a trace. *)
Definition ticks (trace : list event) : nat :=
  length (filter (fun e => e = Tick) trace).


End SurplusWatch.

(** ** Conditions on the pages' events *)

Module PageEvents.
Import Js View.

(** The Dashboard's mount effect has been cleaned up. *)
Definition torn_down {Impact Order : Type} (p : Dashboard.page Impact Order)
  : Prop :=
  Dashboard.refreshInterval p = false
  /\ Dashboard.clockInterval p = false
  /\ Dashboard.visibilityListener p = false.

(** An event of the TrackingPage that is no successful fetch. *)
Definition no_success {Restaurant RawNgo RawDriver Job : Type}
    (e : TrackingPage.event Restaurant RawNgo RawDriver Job) : Prop :=
  match e with
  | TrackingPage.Settle r => TrackingPage.succeeded r = false
  | _ => True
  end.

End PageEvents.

(** ** The login page: the primary login and the cloud sync beside it *)

Module LoginPage.
Import Js AuthStore AppwriteAuth.

Inductive toast :=
| ToastSuccess (message : string)
| ToastError (message : string).

(** [res.data] of [authAPI.login]. *)
Record login_data := {
  res_user : User;
  access_token : string;
}.

(** [res.data.user.role] as the string the API sends. *)
Definition role_name (r : role) : string :=
  match r with
  | restaurant => "restaurant"
  | ngo => "ngo"
  | driver => "driver"
  | admin => "admin"
  end.

Section Page.

(** The Appwrite session and account objects; the page only logs them. *)
Context {Session Account : Type}.

(** [err?.response?.data?.detail] of a rejection. *)
Variable detail : error -> option string.

(** What the page's handler touches: the auth store and storage, the
    [loading] cell, the toasts shown, where the router was sent, and the
    Appwrite SDK calls made. *)
Record page := {
  store : world;
  loading : bool;
  toasts : list toast;
  navigated : option string;
  sdk_calls : calls;
}.

Definition setLoading (v : bool) : stmt page unit :=
  fun p => ({| store := store p; loading := v; toasts := toasts p;
               navigated := navigated p; sdk_calls := sdk_calls p |}, Normal tt).

Definition show (t : toast) : stmt page unit :=
  fun p => ({| store := store p; loading := loading p;
               toasts := (toasts p ++ [t])%list;
               navigated := navigated p; sdk_calls := sdk_calls p |}, Normal tt).

Definition navigate (to : string) : stmt page unit :=
  fun p => ({| store := store p; loading := loading p; toasts := toasts p;
               navigated := Some to; sdk_calls := sdk_calls p |}, Normal tt).

(** A store action run from the page. *)
Definition in_store (action : stmt world unit) : stmt page unit :=
  fun p => match action (store p) with
           | (w, c) => ({| store := w; loading := loading p; toasts := toasts p;
                           navigated := navigated p; sdk_calls := sdk_calls p |}, c)
           end.

(** How the Appwrite calls of the sync settle, should they be made. *)
Record sync := {
  login_session : settled Session;
  login_get : settled Account;
  login_prefs : settled (option string);
  register_create : settled Account;
  register_session : settled unit;
  register_prefs : settled unit;
}.

(** The fire-and-forget sync:
<<
    appwriteAuth.login(email, password)
      .then(async (aw) => {
        if (aw.success) { console.log(...); }
        else {
          const reg = await appwriteAuth.register(email, password, userName, userRole);
          ...
        }
      })
      .catch((err) => console.warn('[Appwrite] Sync error:', err));
>>
    Only the SDK calls it makes are visible outside. *)
Definition cloud_sync (userRole : string) (o : sync) : stmt page unit :=
  fun p =>
    let '(log1, aw) := AppwriteAuth.login (login_session o) (login_get o)
                         (login_prefs o) (sdk_calls p) in
    let log2 := match aw with
                | Fulfilled (Failure _) =>
                    fst (AppwriteAuth.register userRole (register_create o)
                           (register_session o) (register_prefs o) log1)
                | Fulfilled (Success _) | Rejected _ => log1
                end in
    ({| store := store p; loading := loading p; toasts := toasts p;
        navigated := navigated p; sdk_calls := log2 |}, Normal tt).

(** [err?.response?.data?.detail || 'Login failed. Please check credentials.'] *)
Definition error_message (e : error) : string :=
  match detail e with
  | Some d => if truthy_string (Some d) then d
              else "Login failed. Please check credentials."
  | None => "Login failed. Please check credentials."
  end.

(** [handleLogin], with the way [authAPI.login] settles; a fulfilled
    response carries a user and a token, as the API's types say:
<<
    setLoading(true);
    try {
      const res = await authAPI.login(email, password);
      login(res.data.user, res.data.access_token);
      const userName = res.data.user.full_name;
      const userRole = res.data.user.role;
      appwriteAuth.login(email, password).then(...).catch(...);
      toast.success(`Welcome back, ${res.data.user.full_name}!`);
      navigate('/dashboard');
    } catch (err) {
      toast.error(err?.response?.data?.detail || 'Login failed. Please check credentials.');
    } finally {
      setLoading(false);
    }
>> *)
Definition handleLogin (r : settled login_data) (o : sync) : stmt page unit :=
  do* _ := setLoading true in
  finally_stmt
    (try_stmt
       (do* data := lift (await r) in
        do* _ := in_store (AuthStore.login (res_user data) (access_token data)) in
        do* _ := cloud_sync (role_name (user_role (res_user data))) o in
        do* _ := show (ToastSuccess
                         ("Welcome back, " +:+ full_name (res_user data) +:+ "!")) in
        navigate "/dashboard")
       (fun e => show (ToastError (error_message e))))
    (setLoading false).

End Page.
Arguments page : clear implicits.
Arguments sync : clear implicits.

End LoginPage.

(** ** The Impact page: figures over static defaults *)

Module ImpactPage.
Import Js View Rows.
#[local] Open Scope float_scope.

(** [x || fallback] on numbers; [None] is a missing field. *)
Definition or_else (x : option float) (fallback : float) : float :=
  match x with
  | Some v => if SurplusForm.truthy_number v then v else fallback
  | None => fallback
  end.

Section Page.

(** What a stat card carries besides its label and value (suffix, prefix,
    icon, colours). *)
Context {Look : Type}.

Record stat := {
  label : string;
  value : float;
  look : Look;
}.

(** The figures of [impactAPI.dashboard()] the page reads. *)
Record figures := {
  total_kg_saved : option float;
  total_meals_served : option float;
  total_co2_saved_kg : option float;
  total_water_saved_liters : option float;
  total_money_saved_inr : option float;
  total_deliveries : option float;
}.

(** [IMPACT_STATS], for the looks of its six cards. *)
Definition IMPACT_STATS (l1 l2 l3 l4 l5 l6 : Look) : list stat :=
  [ {| label := "totalFoodSaved"; value := 4850; look := l1 |};
    {| label := "mealsServed"; value := 19400; look := l2 |};
    {| label := "co2Prevented"; value := 12125; look := l3 |};
    {| label := "waterSaved"; value := 4850000; look := l4 |};
    {| label := "moneySaved"; value := 485000; look := l5 |};
    {| label := "deliveries"; value := 650; look := l6 |} ].

Definition with_value (s : stat) (v : float) : stat :=
  {| label := label s; value := v; look := look s |}.

(** The [switch (s.label)] of the updater. *)
Definition refresh_stat (d : figures) (s : stat) : stat :=
  if String.eqb (label s) "totalFoodSaved"
  then with_value s (or_else (total_kg_saved d) (value s))
  else if String.eqb (label s) "mealsServed"
  then with_value s (or_else (total_meals_served d) (value s))
  else if String.eqb (label s) "co2Prevented"
  then with_value s (or_else (total_co2_saved_kg d) (value s))
  else if String.eqb (label s) "waterSaved"
  then with_value s (or_else (total_water_saved_liters d) (value s))
  else if String.eqb (label s) "moneySaved"
  then with_value s (or_else (total_money_saved_inr d) (value s))
  else if String.eqb (label s) "deliveries"
  then with_value s (or_else (total_deliveries d) (value s))
  else s.

(** A row of [impactAPI.history(30)], and a bar of the chart. *)
Record history_row := {
  kg_saved : option float;
  kg : option float;
  meals : option float;
  co2_kg : option float;
}.

Record daily := {
  day : nat;
  daily_kg : float;
  daily_meals : float;
  daily_co2 : float;
}.

(** [(h, i) => ({ day: i + 1, kg: h.kg_saved || h.kg || 0,
                  meals: h.meals || 0, co2: h.co2_kg || 0 })] *)
Definition daily_of (i : nat) (h : history_row) : daily :=
  {| day := i + 1;
     daily_kg := or_else (kg_saved h) (or_else (kg h) 0);
     daily_meals := or_else (meals h) 0;
     daily_co2 := or_else (co2_kg h) 0 |}.

Record state := {
  stats : list stat;
  dailyData : list daily;
}.

(** How the two requests settle; a body is [None] when it is falsy, and a
    row of the history may be null. *)
Record responses := {
  dashboard_res : settled (option figures);
  history_res : settled (payload (option history_row));
}.

(** [fetchImpact] from its [await] on:
<<
    try {
      const [dashRes, histRes] = await Promise.all([
        impactAPI.dashboard().catch(() => null),
        impactAPI.history(30).catch(() => null),
      ]);
      if (dashRes?.data) { const d = dashRes.data; setStats((prev) => prev.map(...)); }
      if (histRes?.data && Array.isArray(histRes.data) && histRes.data.length > 0) {
        setDailyData(histRes.data.map(...));
      }
    } catch { /* keep fallback */ }
>> *)
Definition fetchImpact (r : responses) : stmt state unit :=
  try_stmt
    (do* results :=
       lift (await (all2
                      (catch (dashboard_res r) (fun _ => Fulfilled None))
                      (catch (history_res r) (fun _ => Fulfilled Null)))) in
     let '(dash, hist) := results in
     do* _ := (fun s =>
                 match dash with
                 | Some d => ({| stats := refresh_stat d <$> stats s;
                                 dailyData := dailyData s |}, Normal tt)
                 | None => (s, Normal tt)
                 end) in
     match hist with
     | Array (h :: rest) =>
         do* bars := lift (imap_rows daily_of (h :: rest)) in
         fun s => ({| stats := stats s; dailyData := bars |}, Normal tt)
     | _ => ret tt
     end)
    (fun _ => ret tt).

End Page.
Arguments stat : clear implicits.
Arguments state : clear implicits.

End ImpactPage.

(** * Part II: properties *)

(** ** Control flow *)

Section ControlFlow.
Import Js.

Lemma truthy_string_Some s :
  truthy_string (Some s) = negb (String.eqb s "").
Proof. reflexivity. Qed.

(** An [async] function whose body is a [try] with a handler that returns
    never rejects. *)
Lemma async_try_fulfils {S A} (body : stmt S A) (fallback : A) (s : S) :
  exists s' a,
    async_stmt (try_stmt body (fun _ => ret fallback)) s = (s', Fulfilled a).
Proof.
  unfold async_stmt, try_stmt, ret.
  destruct (body s) as [s' [a | e]]; simpl; eauto.
Qed.

End ControlFlow.

(** ** api.ts: the Authorization header *)

Section RequestClient.
Import Js Api.

Lemma authorization_interceptor ls config :
  headers config !! "Authorization" = None ->
  authorization (auth_interceptor ls config) =
    match LocalStorage.getItem ls "token" with
    | Some tok => if String.eqb tok "" then None else Some ("Bearer " +:+ tok)
    | None => None
    end.
Proof.
  intros Hnone. unfold authorization, auth_interceptor.
  destruct (LocalStorage.getItem ls "token") as [tok |] eqn:Htok; [| done].
  rewrite truthy_string_Some.
  destruct (String.eqb tok ""); simpl; [done |].
  by rewrite lookup_insert_eq.
Qed.

Lemma default_has_no_authorization base m path :
  headers (create_config base m path) !! "Authorization" = None.
Proof. reflexivity. Qed.

(** C8, as the code has it.  The header of a request is decided by the
    storage at the moment of the call: "Bearer " followed by the stored
    token when that token is a non-empty string, and no Authorization
    header at all when no token is stored or the stored token is the empty
    string (the interceptor's [if (token)]).  So the call after a login
    carries the new token and the call after a logout carries none. *)
Theorem fresh_token_per_call :
  forall (base : string) (m : http_method) (path : string),
    (forall ls : LocalStorage.t,
        authorization (request base ls m path) =
          match LocalStorage.getItem ls "token" with
          | Some tok =>
              if String.eqb tok "" then None else Some ("Bearer " +:+ tok)
          | None => None
          end)
    /\ (forall (w : AuthStore.world) (u : AuthStore.User) (tok : string),
           authorization
             (request base (AuthStore.storage (fst (AuthStore.login u tok w))) m path)
           = if String.eqb tok "" then None else Some ("Bearer " +:+ tok))
    /\ (forall (w : AuthStore.world) (o : Appwrite.sdk_call),
           authorization
             (request base (AuthStore.storage (fst (AuthStore.logout o w))) m path)
           = None).
Proof.
  intros base m path.
  assert (Hreq : forall ls,
             authorization (request base ls m path) =
               match LocalStorage.getItem ls "token" with
               | Some tok =>
                   if String.eqb tok "" then None else Some ("Bearer " +:+ tok)
               | None => None
               end).
  { intros ls. apply authorization_interceptor, default_has_no_authorization. }
  split; [exact Hreq |]. split.
  - intros w u tok. rewrite Hreq. simpl.
    unfold LocalStorage.getItem, LocalStorage.setItem.
    by rewrite lookup_insert_eq.
  - intros w o. rewrite Hreq.
    destruct o; simpl; unfold LocalStorage.getItem, LocalStorage.removeItem;
      by rewrite lookup_delete_eq.
Qed.

(** C8 as stated fails when the stored token is the empty string: a token
    is stored, and the request carries no Authorization header instead of
    "Bearer " followed by it. *)
Lemma empty_token_sends_no_header :
  let ls := LocalStorage.setItem ∅ "token" "" in
  LocalStorage.getItem ls "token" = Some ""
  /\ authorization (request "" ls GET "/auth/me") = None
  /\ authorization (request "" ls GET "/auth/me") <> Some ("Bearer " +:+ "").
Proof.
  cbv zeta. split; [reflexivity |]. split; [reflexivity |].
  vm_compute. discriminate.
Qed.

End RequestClient.

(** ** store.ts: logout *)

Section Logout.
Import Js AuthStore.

Lemma appwrite_logout_fulfils o : exists b, Appwrite.logout o = Fulfilled b.
Proof. destruct o; simpl; eauto. Qed.

Lemma logout_with_promise (p : settled bool) (w : world) :
  exists w', logout_with (Normal p) w = (w', Normal tt) /\ logged_out w w'.
Proof.
  destruct p as [b | e]; eexists; (split; [reflexivity |]);
    unfold logged_out; simpl;
    unfold LocalStorage.getItem, LocalStorage.removeItem;
    rewrite lookup_delete_eq; repeat split.
Qed.

(** C10.  Whatever the cloud logout does (the SDK call fulfils, rejects or
    throws, and whatever promise [appwriteAuth.logout()] hands back, a
    rejected one included), the store's [logout] runs to its end without
    throwing, the token is gone from persistent storage, and the store
    holds user = null, token = null, roleDashboardData = null and
    isAuthenticated = false; no rejection is left unhandled. *)
Theorem logout_always_completes_locally :
  forall w : world,
    (forall o : Appwrite.sdk_call,
        exists w', logout o w = (w', Normal tt) /\ logged_out w w')
    /\ (forall p : settled bool,
           exists w', logout_with (Normal p) w = (w', Normal tt)
                      /\ logged_out w w').
Proof.
  intros w. split.
  - intros o. unfold logout. apply logout_with_promise.
  - intros p. apply logout_with_promise.
Qed.

End Logout.

(** ** firebase.ts: the two upserts *)

Section Upserts.
Import Js Firestore Firebase.

(** What one upsert does, by cases on the document id and on the fate of
    the write. *)
Lemma upsert_body_cases (col id_field : string) (data : fields)
    (o : write_outcome) (d : db) :
  async_stmt (upsert_body col id_field data o) d =
    match doc col (data !! id_field), o with
    | Normal ref, Committed now =>
        (<[ ref := (resolve now <$> with_updated_at data) ∪ default ∅ (d !! ref) ]> d,
         Fulfilled true)
    | _, _ => (d, Fulfilled false)
    end.
Proof.
  unfold async_stmt, upsert_body, try_stmt, bind_stmt, lift, ret.
  destruct (doc col (data !! id_field)) as [ref | e]; [| reflexivity].
  destruct o as [now | e]; reflexivity.
Qed.

Lemma split_slash_plain (s : string) :
  has_slash s = false -> split_slash s = [s].
Proof.
  induction s as [| c s IH]; simpl; [done |].
  destruct (Ascii.eqb c "/"); simpl; [done |].
  intros Hs. by rewrite (IH Hs).
Qed.

Lemma no_double_slash (s : string) :
  has_slash s = false -> has_double_slash s = false.
Proof.
  induction s as [| c s IH]; [done |].
  cbn [has_slash]. destruct (Ascii.eqb c "/") eqn:Hc; simpl; [done |].
  intros Hs. destruct s as [| b s]; [done |].
  rewrite Hc. simpl. exact (IH Hs).
Qed.

(** A document id is its own single segment. *)
Lemma segments_of_id (s : string) :
  is_document_id s = true -> segments_of s = Normal [s].
Proof.
  unfold is_document_id, segments_of. intros [Hne Hs]%andb_true_iff.
  apply negb_true_iff in Hne, Hs.
  rewrite (no_double_slash s Hs), (split_slash_plain s Hs).
  apply String.eqb_neq in Hne.
  rewrite filter_cons. by case_decide.
Qed.

(** What [doc] accepts is a string, and the document it names lies under
    the collection asked for. *)
Lemma doc_Normal (col : string) (id : option value) (ref : doc_ref) :
  is_document_id col = true ->
  doc col id = Normal ref ->
  exists (s : string) (rest : list string),
    id = Some (VString s)
    /\ segments_of s = Normal rest
    /\ ref = col :: rest.
Proof.
  intros Hcol. unfold doc. rewrite (segments_of_id col Hcol).
  destruct (String.eqb col ""); simpl; [by intros [=] |].
  destruct id as [[ | s | | | ] |]; simpl; try (by intros [=]).
  destruct (segments_of s) as [rest | e] eqn:Hseg; simpl; [| by intros [=]].
  match goal with
  | |- (if ?even then _ else _) = _ -> _ => destruct even
  end; [| by intros [=]].
  intros Href. injection Href as <-. by exists s, rest.
Qed.

(** A document id names the document of that id in the collection. *)
Lemma doc_string (col s : string) :
  is_document_id col = true -> is_document_id s = true ->
  doc col (Some (VString s)) = Normal [col; s].
Proof.
  intros Hcol Hs. unfold doc.
  rewrite (segments_of_id col Hcol), (segments_of_id s Hs).
  unfold is_document_id in Hcol. apply andb_true_iff in Hcol as [Hne _].
  apply negb_true_iff in Hne. by rewrite Hne.
Qed.

(** An accepted id without '/' is a document id, and names its own
    document. *)
Lemma doc_plain (col s : string) (ref : doc_ref) :
  is_document_id col = true ->
  has_slash s = false ->
  doc col (Some (VString s)) = Normal ref ->
  is_document_id s = true /\ ref = [col; s].
Proof.
  intros Hcol Hs Hdoc.
  destruct (String.eqb s "") eqn:Hempty.
  - apply String.eqb_eq in Hempty as ->.
    unfold doc in Hdoc. rewrite (segments_of_id col Hcol) in Hdoc.
    destruct (String.eqb col ""); discriminate.
  - assert (Hid : is_document_id s = true).
    { unfold is_document_id. by rewrite Hempty, Hs. }
    rewrite (doc_string col s Hcol Hid) in Hdoc. by injection Hdoc as <-.
Qed.

(** Ids with a '/': "a/b" is refused, so the upsert returns false and
    writes nothing even when the backend would commit; "a/" is taken for the
    document "a". *)
Lemma slash_ids :
  updateDriverLocation {[ "driver_id" := VString "a/b"; "lat" := VNumber 1 ]}
    (Committed 1) ∅ = (∅, Fulfilled false)
  /\ upsertActiveDelivery {[ "delivery_id" := VString "a/b" ]}
       (Committed 1) ∅ = (∅, Fulfilled false)
  /\ doc DRIVER_LOCATIONS_COL (Some (VString "a/"))
     = Normal [DRIVER_LOCATIONS_COL; "a"].
Proof. repeat split. Qed.

Lemma written_updated_at (now : Z) (data : fields) :
  (resolve now <$> with_updated_at data) !! "updated_at" = Some (VTimestamp now).
Proof.
  unfold with_updated_at. by rewrite lookup_fmap, lookup_insert_eq.
Qed.

Lemma upsert_body_contract (col id_field : string) :
  upsert_contract col id_field
    (fun data o d => async_stmt (upsert_body col id_field data o) d).
Proof.
  intros data o d. rewrite upsert_body_cases.
  destruct (doc col (data !! id_field)) as [ref | e] eqn:Hdoc.
  - destruct o as [now | e].
    + eexists _, true. split; [reflexivity |]. repeat split.
      * intros _. eauto.
      * intros now' _ [= <-]. eexists ref, _. split; [done |].
        split; [apply lookup_insert_eq |].
        rewrite lookup_union_l'; [apply written_updated_at |].
        rewrite written_updated_at. eauto.
      * discriminate.
    + exists d, false. split; [reflexivity |]. repeat split; try done.
      intros (? & ? & _ & [=]).
  - exists d, false. split; [reflexivity |]. repeat split; try done.
    intros (? & ? & [=] & _).
Qed.

(** C7.  [updateDriverLocation] and [upsertActiveDelivery] never throw to
    the caller: for every input and every outcome of the store write the
    promise they return fulfils with a boolean, true on success (the SDK
    took the id for a document and the write was committed) and false on
    failure (the id is missing, no string or refused by the SDK, or the
    write failed), and on success the document written carries the
    server-generated [updated_at]. *)
Theorem upsert_never_throws :
  upsert_contract DRIVER_LOCATIONS_COL "driver_id" updateDriverLocation
  /\ upsert_contract ACTIVE_DELIVERIES_COL "delivery_id" upsertActiveDelivery.
Proof.
  split.
  - apply (upsert_body_contract DRIVER_LOCATIONS_COL "driver_id").
  - apply (upsert_body_contract ACTIVE_DELIVERIES_COL "delivery_id").
Qed.

(** A committed merge-write leaves every field it does not name as it was. *)
Lemma upsert_frame (col id_field : string) (data : fields) (now : Z) (d : db)
    (ref : doc_ref) (old : fields) (key : string) :
  doc col (data !! id_field) = Normal ref ->
  d !! ref = Some old ->
  data !! key = None ->
  key <> "updated_at" ->
  exists stored,
    fst (async_stmt (upsert_body col id_field data (Committed now)) d) !! ref
      = Some stored
    /\ stored !! key = old !! key.
Proof.
  intros Hdoc Hold Hkey Hne. rewrite upsert_body_cases, Hdoc. simpl.
  eexists. split; [apply lookup_insert_eq |].
  rewrite Hold. simpl. rewrite lookup_union_r; [done |].
  rewrite lookup_fmap. unfold with_updated_at.
  rewrite lookup_insert_ne by done. by rewrite Hkey.
Qed.

(** ... and stores every field it names. *)
Lemma upsert_writes (col id_field : string) (data : fields) (now : Z) (d : db)
    (ref : doc_ref) (key : string) (v : value) :
  doc col (data !! id_field) = Normal ref ->
  data !! key = Some v ->
  key <> "updated_at" ->
  exists stored,
    fst (async_stmt (upsert_body col id_field data (Committed now)) d) !! ref
      = Some stored
    /\ stored !! key = Some (resolve now v).
Proof.
  intros Hdoc Hkey Hne. rewrite upsert_body_cases, Hdoc. simpl.
  eexists. split; [apply lookup_insert_eq |].
  apply lookup_union_Some_l.
  rewrite lookup_fmap. unfold with_updated_at.
  rewrite lookup_insert_ne by done. by rewrite Hkey.
Qed.

Lemma two_writes_add_up (col id_field id : string) (now1 now2 : Z) (d : db) :
  is_document_id col = true ->
  is_document_id id = true ->
  id_field = "driver_id" \/ id_field = "delivery_id" ->
  let d1 := fst (async_stmt (upsert_body col id_field
                               (position_write id_field id) (Committed now1)) d) in
  let d2 := fst (async_stmt (upsert_body col id_field
                               (heading_write id_field id) (Committed now2)) d1) in
  holds_all_three (d2 !! [col; id]).
Proof.
  intros Hcol Hid Hfield d1 d2.
  assert (Hdoc1 : doc col (position_write id_field id !! id_field) = Normal [col; id]).
  { unfold position_write. rewrite lookup_insert_eq. by apply doc_string. }
  assert (Hdoc2 : doc col (heading_write id_field id !! id_field) = Normal [col; id]).
  { unfold heading_write. rewrite lookup_insert_eq. by apply doc_string. }
  assert (Hlat : exists fs, d1 !! [col; id] = Some fs
                            /\ fs !! "lat" = Some (VNumber 10)
                            /\ fs !! "lng" = Some (VNumber 20)).
  { subst d1. rewrite upsert_body_cases, Hdoc1. simpl.
    eexists. split; [apply lookup_insert_eq |].
    split; apply lookup_union_Some_l; rewrite lookup_fmap;
      unfold with_updated_at, position_write;
      destruct Hfield as [-> | ->]; by simplify_map_eq. }
  destruct Hlat as (fs1 & Hd1 & Hlat & Hlng).
  destruct (upsert_frame col id_field (heading_write id_field id) now2 d1
              [col; id] fs1 "lat") as (fs2 & Hd2 & Hlat2); try done.
  { unfold heading_write. destruct Hfield as [-> | ->]; by simplify_map_eq. }
  destruct (upsert_frame col id_field (heading_write id_field id) now2 d1
              [col; id] fs1 "lng") as (fs2' & Hd2' & Hlng2); try done.
  { unfold heading_write. destruct Hfield as [-> | ->]; by simplify_map_eq. }
  destruct (upsert_writes col id_field (heading_write id_field id) now2 d1
              [col; id] "heading" (VNumber 90)) as (fs2'' & Hd2'' & Hhead);
    try done.
  { unfold heading_write. destruct Hfield as [-> | ->]; by simplify_map_eq. }
  fold d2 in Hd2, Hd2', Hd2''.
  rewrite Hd2 in Hd2', Hd2''. injection Hd2' as <-. injection Hd2'' as <-.
  exists fs2. rewrite Hlat2, Hlng2. done.
Qed.

(** C6.  For every document id (a non-empty string without '/'): through
    either upsert, writing [{lat: 10, lng: 20}] and then [{heading: 90}] to
    that id, both writes committed, leaves a document with all three
    fields; and a committed upsert keeps every field it does not name
    (other than [updated_at], which every write sets) as the document had
    it. *)
Theorem merge_upsert_additive :
  forall (id : string) (now1 now2 : Z) (d : db),
    is_document_id id = true ->
    (let d1 := fst (updateDriverLocation (position_write "driver_id" id)
                      (Committed now1) d) in
     let d2 := fst (updateDriverLocation (heading_write "driver_id" id)
                      (Committed now2) d1) in
     holds_all_three (d2 !! [DRIVER_LOCATIONS_COL; id]))
    /\ (let d1 := fst (upsertActiveDelivery (position_write "delivery_id" id)
                         (Committed now1) d) in
        let d2 := fst (upsertActiveDelivery (heading_write "delivery_id" id)
                         (Committed now2) d1) in
        holds_all_three (d2 !! [ACTIVE_DELIVERIES_COL; id]))
    /\ (forall (data old : fields) (key : string),
           data !! "driver_id" = Some (VString id) ->
           d !! [DRIVER_LOCATIONS_COL; id] = Some old ->
           data !! key = None -> key <> "updated_at" ->
           exists stored,
             fst (updateDriverLocation data (Committed now1) d)
               !! [DRIVER_LOCATIONS_COL; id] = Some stored
             /\ stored !! key = old !! key)
    /\ (forall (data old : fields) (key : string),
           data !! "delivery_id" = Some (VString id) ->
           d !! [ACTIVE_DELIVERIES_COL; id] = Some old ->
           data !! key = None -> key <> "updated_at" ->
           exists stored,
             fst (upsertActiveDelivery data (Committed now1) d)
               !! [ACTIVE_DELIVERIES_COL; id] = Some stored
             /\ stored !! key = old !! key).
Proof.
  intros id now1 now2 d Hid. repeat split.
  - apply (two_writes_add_up DRIVER_LOCATIONS_COL "driver_id"); auto.
  - apply (two_writes_add_up ACTIVE_DELIVERIES_COL "delivery_id"); auto.
  - intros data old key Hdata Hold Hkey Hne.
    apply (upsert_frame DRIVER_LOCATIONS_COL "driver_id"); try done.
    rewrite Hdata. by apply doc_string.
  - intros data old key Hdata Hold Hkey Hne.
    apply (upsert_frame ACTIVE_DELIVERIES_COL "delivery_id"); try done.
    rewrite Hdata. by apply doc_string.
Qed.

Lemma merge_upsert_additive_witness :
  is_document_id "driver_7" = true
  /\ holds_all_three
    (fst (updateDriverLocation (heading_write "driver_id" "driver_7") (Committed 2)
            (fst (updateDriverLocation (position_write "driver_id" "driver_7")
                    (Committed 1) ∅)))
       !! [DRIVER_LOCATIONS_COL; "driver_7"]).
Proof.
  split; [reflexivity |].
  exact (proj1 (merge_upsert_additive "driver_7" 1 2 ∅ eq_refl)).
Defined.

End Upserts.

(** ** firebase.ts: the driver simulation *)

Section Telemetry.
Import Js Firestore Firebase.
#[local] Open Scope float_scope.

Variable atan2 : float -> float -> float.
Variables (driverId driverName : string).

Lemma tick_cases pLat pLng dLat dLng (r : float) (s : sim) :
  tick atan2 driverId driverName pLat pLng dLat dLng r s =
    if interval s
    then (advance s,
          Some (snd (callback atan2 driverId driverName pLat pLng dLat dLng r s)))
    else (s, None).
Proof. unfold tick. destruct (interval s); reflexivity. Qed.

(** Every update carries the same heading, whatever the tick. *)
Lemma heading_constant pLat pLng dLat dLng (r : float) (s : sim) :
  heading (snd (callback atan2 driverId driverName pLat pLng dLat dLng r s))
  = normalize (raw_heading atan2 pLat pLng dLat dLng).
Proof. reflexivity. Qed.

(** Cancelling twice is cancelling once, and a cancelled simulation emits
    nothing. *)
Lemma dispose_idempotent (s : sim) : dispose (dispose s) = dispose s.
Proof. reflexivity. Qed.

Lemma disposed_is_silent pLat pLng dLat dLng (r : float) (s : sim) :
  tick atan2 driverId driverName pLat pLng dLat dLng r (dispose s)
  = (dispose s, None).
Proof. reflexivity. Qed.

(** A cleared interval stays cleared, and nothing is emitted any more. *)
Lemma advance_keeps_cleared (s : sim) :
  interval s = false -> interval (advance s) = false.
Proof.
  intros H. unfold advance. destruct (ge _ _); [reflexivity | exact H].
Qed.

Lemma after_S (n : nat) :
  after (S n) = if interval (after n) then advance (after n) else after n.
Proof. reflexivity. Qed.

(** The first fifty ticks, checked one by one: the interval is set until
    the fiftieth tick clears it. *)
Lemma interval_first_ticks :
  forallb (fun n => Bool.eqb (interval (after n)) (n <? 50)%nat) (List.seq 0 51)
  = true.
Proof. vm_compute. reflexivity. Qed.

Lemma interval_after (n : nat) : interval (after n) = (n <? 50)%nat.
Proof.
  destruct (le_lt_dec n 50) as [Hle | Hgt].
  - pose proof interval_first_ticks as H.
    rewrite forallb_forall in H. specialize (H n).
    apply Bool.eqb_prop, H, in_seq. lia.
  - induction Hgt as [| m Hm IH].
    + reflexivity.
    + rewrite after_S, IH.
      destruct (Nat.ltb_spec m 50), (Nat.ltb_spec (S m) 50); try lia.
      exact IH.
Qed.

Lemma after_stuck (n : nat) : (50 <= n)%nat -> after (S n) = after n.
Proof.
  intros H. rewrite after_S, interval_after.
  destruct (Nat.ltb_spec n 50); [lia | reflexivity].
Qed.

Lemma after_advance (n : nat) : (n < 50)%nat -> after (S n) = advance (after n).
Proof.
  intros H. rewrite after_S, interval_after.
  destruct (Nat.ltb_spec n 50); [reflexivity | lia].
Qed.

(** A run that starts after [k] ticks: where it ends, how many updates it
    emits, and which callback run each update comes from. *)
Lemma run_after pLat pLng dLat dLng (randoms : list float) :
  forall k : nat,
    let result := run atan2 driverId driverName pLat pLng dLat dLng randoms (after k) in
    fst result = after (k + length randoms)
    /\ length (snd result)
       = (Nat.min (k + length randoms) 50 - Nat.min k 50)%nat
    /\ (forall (i : nat) (u : DriverUpdate),
           snd result !! i = Some u ->
           (k + i < 50)%nat
           /\ exists r, u = snd (callback atan2 driverId driverName
                                   pLat pLng dLat dLng r (after (k + i)))).
Proof.
  induction randoms as [| r rest IH]; intros k; cbv zeta.
  - cbn [run fst snd length]. rewrite Nat.add_0_r.
    split; [reflexivity |]. split; [lia |].
    intros i u Hi. by rewrite lookup_nil in Hi.
  - specialize (IH (S k)). cbv zeta in IH.
    cbn [run length]. rewrite tick_cases.
    destruct (interval (after k)) eqn:Hint; rewrite interval_after in Hint.
    + apply Nat.ltb_lt in Hint.
      rewrite <- (after_advance k Hint).
      destruct (run atan2 driverId driverName pLat pLng dLat dLng rest (after (S k)))
        as [s2 outs].
      cbn [fst snd] in *.
      destruct IH as (Hend & Hlen & Hidx).
      split; [rewrite Hend; f_equal; lia |].
      split; [cbn [length]; lia |].
      intros [| j] u Hu.
      * injection Hu as <-. rewrite Nat.add_0_r. split; [lia | eauto].
      * destruct (Hidx j u Hu) as (Hlt & r' & ->).
        replace (k + S j)%nat with (S k + j)%nat by lia.
        split; [lia | eauto].
    + apply Nat.ltb_ge in Hint.
      rewrite <- (after_stuck k Hint).
      destruct (run atan2 driverId driverName pLat pLng dLat dLng rest (after (S k)))
        as [s2 outs].
      cbn [fst snd] in *.
      destruct IH as (Hend & Hlen & Hidx).
      split; [rewrite Hend; f_equal; lia |]. split; [lia |].
      intros i u Hu. destruct (Hidx i u Hu) as (Hlt & _). lia.
Qed.

(** The first fifty ticks from (0,0) to (10,10), checked one by one. *)
Lemma first_ticks_checked : forallb tick_checked (List.seq 0 51) = true.
Proof. vm_compute. reflexivity. Qed.

Lemma tick_checked_le (n : nat) : (n <= 50)%nat -> tick_checked n = true.
Proof.
  intros H. pose proof first_ticks_checked as Hall.
  rewrite forallb_forall in Hall. apply Hall, in_seq. lia.
Qed.

(** What a tick emits goes to [updateDriverLocation]: when the write is
    committed the document of the simulated driver holds the position. *)
Lemma simulated_update_is_stored (pLat pLng dLat dLng r : float) (s : sim)
    (now : Z) (d : db) :
  is_document_id driverId = true ->
  let u := snd (callback atan2 driverId driverName pLat pLng dLat dLng r s) in
  exists stored,
    fst (updateDriverLocation (to_fields u) (Committed now) d)
      !! [DRIVER_LOCATIONS_COL; driverId] = Some stored
    /\ stored !! "lat" = Some (VNumber (lat u))
    /\ stored !! "lng" = Some (VNumber (lng u))
    /\ stored !! "heading" = Some (VNumber (heading u)).
Proof.
  intros Hid u.
  assert (Hdoc : doc DRIVER_LOCATIONS_COL (to_fields u !! "driver_id")
                 = Normal [DRIVER_LOCATIONS_COL; driverId]).
  { unfold to_fields. rewrite lookup_insert_eq. by apply doc_string. }
  unfold updateDriverLocation. rewrite upsert_body_cases, Hdoc. simpl.
  eexists. split; [apply lookup_insert_eq |].
  repeat split; apply lookup_union_Some_l; rewrite lookup_fmap;
    unfold with_updated_at, to_fields; by simplify_map_eq.
Qed.

(** C3.  The simulation from (0,0) to (10,10), for any number of timer
    ticks (one per element of [randoms], the values [Math.random()] would
    return).  Each of the first fifty ticks emits one update and no later
    tick emits any; the update of tick n has both coordinates equal to
    0 + (10 - 0) * progress, where progress is min(0.02 n, 1) up to the
    rounding of the repeated binary64 addition (within 1e-15, the position
    within 1e-14), so tick 25 is at (5,5) up to 1e-14; the interval is set
    before the fiftieth tick and cleared by it, the first at which progress
    reaches 1; that tick's progress is exactly 1, its position exactly
    (10,10) and its speed exactly 0. *)
Theorem telemetry_interpolation :
  forall randoms : list float,
    let result := run atan2 driverId driverName 0 0 10 10 randoms start in
    let updates := snd result in
    length updates = Nat.min (length randoms) 50
    /\ fst result = after (length randoms)
    /\ (forall n : nat, interval (after n) = (n <? 50)%nat)
    /\ (forall (n : nat) (u : DriverUpdate),
           updates !! n = Some u ->
           let p := progress (after (S n)) in
           let ideal := Qmin (Z.of_nat (S n) # 50) 1 in
           lat u = lerp 0 10 p
           /\ lng u = lerp 0 10 p
           /\ near (1 # 10 ^ 15) p ideal = true
           /\ near (1 # 10 ^ 14) (lat u) (10 * ideal) = true
           /\ near (1 # 10 ^ 14) (lng u) (10 * ideal) = true)
    /\ (forall u : DriverUpdate,
           updates !! 24%nat = Some u ->
           near (1 # 10 ^ 14) (lat u) 5 = true
           /\ near (1 # 10 ^ 14) (lng u) 5 = true)
    /\ (forall u : DriverUpdate,
           updates !! 49%nat = Some u ->
           progress (after 50) = 1 /\ lat u = 10 /\ lng u = 10 /\ speed u = 0).
Proof.
  intros randoms result updates.
  pose proof (run_after 0 0 10 10 randoms 0) as H.
  cbv zeta in H. change (after 0) with start in H.
  fold result in H. fold updates in H.
  destruct H as (Hend & Hlen & Hidx).
  rewrite Nat.add_0_l in Hend, Hlen. change (Nat.min 0 50) with 0%nat in Hlen.
  rewrite Nat.sub_0_r in Hlen.
  assert (Hupd : forall n u, updates !! n = Some u ->
            (n < 50)%nat
            /\ lat u = lerp 0 10 (progress (after (S n)))
            /\ lng u = lerp 0 10 (progress (after (S n)))
            /\ speed u = (if lt (progress (after (S n))) 1
                          then speed u else 0)).
  { intros n u Hu. destruct (Hidx n u Hu) as (Hlt & r & ->).
    rewrite (after_advance n Hlt). simpl.
    repeat split; [exact Hlt |].
    destruct (lt (progress (advance (after n))) 1); reflexivity. }
  split; [rewrite Hlen; lia |]. split; [exact Hend |].
  split; [exact interval_after |]. split; [| split].
  - intros n u Hu p ideal.
    destruct (Hupd n u Hu) as (Hlt & Hlat & Hlng & _).
    pose proof (tick_checked_le (S n) ltac:(lia)) as Hchk.
    unfold tick_checked in Hchk. apply andb_prop in Hchk as [Hp Hpos].
    rewrite Hlat, Hlng. auto.
  - intros u Hu. destruct (Hupd 24%nat u Hu) as (_ & Hlat & Hlng & _).
    rewrite Hlat, Hlng. split; vm_compute; reflexivity.
  - intros u Hu. destruct (Hupd 49%nat u Hu) as (_ & Hlat & Hlng & Hspeed).
    rewrite Hlat, Hlng, Hspeed. repeat split; vm_compute; reflexivity.
Qed.

(** C9, the edge the normalisation misses.  From pickup (0, 1e-20) to
    dropoff (1, 0) the longitude difference is -1e-20; an [atan2] that
    returns -1e-20 for it (as the engines' math libraries do for so small
    an angle) gives a heading of about -5.7e-19 degrees, and adding 360 to
    it rounds to 360 itself: the update carries heading 360, which is not
    below 360. *)
Theorem heading_reaches_360 :
  forall (r : float) (s : sim),
    atan2 (-1e-20) 1 = -1e-20 ->
    let u := snd (callback atan2 driverId driverName 0 1e-20 1 0 r s) in
    heading u = 360 /\ lt (heading u) 360 = false.
Proof.
  intros r s Hatan u.
  assert (Hh : heading u = 360).
  { subst u. rewrite heading_constant. unfold raw_heading.
    replace (0 - 1e-20) with (-1e-20) by (vm_compute; reflexivity).
    replace (1 - 0) with 1 by (vm_compute; reflexivity).
    rewrite Hatan. vm_compute. reflexivity. }
  rewrite Hh. split; [reflexivity | vm_compute; reflexivity].
Qed.

End Telemetry.

Lemma heading_reaches_360_witness :
  (fun y _ : float => y) (-1e-20)%float 1%float = (-1e-20)%float
  /\ Firebase.heading
       (snd (Firebase.callback (fun y _ => y) "d1" "Asha" 0 1e-20 1 0 0
               Firebase.start)) = 360%float.
Proof.
  split; [reflexivity |].
  exact (proj1 (heading_reaches_360 (fun y _ => y) "d1" "Asha" 0%float
                  Firebase.start eq_refl)).
Defined.

(** ** SurplusPage.tsx: the order watcher *)

Section Watcher.
Import Js SurplusPage.

Lemma on_response_cases (r : response) (w : watcher) :
  fst (on_response r w) =
    match r with
    | Fulfilled (Some status) =>
        {| orderStage := status;
           interval := if is_terminal status then false else interval w;
           polls := polls w |}
    | Fulfilled None | Rejected _ => w
    end.
Proof.
  destruct r as [[status |] | e]; try reflexivity.
  unfold on_response, try_stmt, bind_stmt, lift. simpl.
  destruct (is_terminal status); reflexivity.
Qed.

(** The callback that sees a terminal status clears the interval itself. *)
Lemma terminal_response_clears (status : string) (w : watcher) :
  is_terminal status = true ->
  interval (step w (Response (Fulfilled (Some status)))) = false
  /\ orderStage (step w (Response (Fulfilled (Some status)))) = status
  /\ polls (step w (Response (Fulfilled (Some status)))) = polls w.
Proof.
  intros Hterm. simpl. rewrite on_response_cases, Hterm. auto.
Qed.

(** With the interval cleared no event issues a poll or sets it again. *)
Lemma cleared_step (w : watcher) (e : event) :
  interval w = false ->
  interval (step w e) = false /\ polls (step w e) = polls w.
Proof.
  intros Hoff. destruct e as [| r |]; simpl.
  - rewrite Hoff. auto.
  - rewrite on_response_cases. destruct r as [[status |] | err]; simpl; auto.
    destruct (is_terminal status); auto.
  - auto.
Qed.

Lemma cleared_run (trace : list event) :
  forall w : watcher,
    interval w = false ->
    interval (run w trace) = false /\ polls (run w trace) = polls w.
Proof.
  induction trace as [| e trace IH]; intros w Hoff; [auto |].
  destruct (cleared_step w e Hoff) as [Hoff' Hpolls].
  destruct (IH (step w e) Hoff') as [H1 H2].
  unfold run in *. simpl. rewrite H1, H2. auto.
Qed.

(** A poll that fails, or that returns no data, changes nothing. *)
Lemma failed_poll_ignored (e : error) (w : watcher) :
  step w (Response (Rejected e)) = w /\ step w (Response (Fulfilled None)) = w.
Proof. split; reflexivity. Qed.

Lemma run_app (w : watcher) (t1 t2 : list event) :
  run w (t1 ++ t2) = run (run w t1) t2.
Proof. apply fold_left_app. Qed.

(** C2.  However the polls before went (any interleaving of interval
    ticks, settled requests and clean-ups), the callback that processes a
    response with status delivered, cancelled or expired clears the
    interval, and whatever the event loop delivers afterwards no further
    poll is issued.  For the answers pending, assigned, picked_up,
    delivered, each arriving before the next tick, a started watcher polls
    exactly 4 times: the interval is still set after the third answer and
    cleared by the fourth. *)
Theorem watcher_termination :
  forall (createdOrder_id : option Z) (stage status : string)
         (before afterwards : list event),
    is_terminal status = true ->
    let w := run (effect createdOrder_id stage)
                 (before ++ [Response (Fulfilled (Some status))]) in
    let three := answered ["pending"; "assigned"; "picked_up"] in
    let four := answered ["pending"; "assigned"; "picked_up"; "delivered"] in
    let w3 := run (effect createdOrder_id stage) three in
    let w4 := run (effect createdOrder_id stage) four in
    (interval w = false
     /\ orderStage w = status
     /\ polls (run w afterwards) = polls w
     /\ interval (run w afterwards) = false)
    /\ (polls w4 = (if truthy_id createdOrder_id then 4 else 0)%nat
        /\ interval w3 = truthy_id createdOrder_id
        /\ interval w4 = false
        /\ polls (run w4 afterwards) = polls w4).
Proof.
  intros id stage status before afterwards Hterm w three four w3 w4.
  assert (Hw : interval w = false /\ orderStage w = status).
  { subst w. rewrite run_app. simpl.
    destruct (terminal_response_clears status
                (run (effect id stage) before) Hterm) as (H1 & H2 & _).
    auto. }
  destruct Hw as [Hoff Hstage].
  destruct (cleared_run afterwards w Hoff) as [Hoff' Hpolls].
  split; [auto |].
  assert (H4 : interval w4 = false
               /\ polls w4 = (if truthy_id id then 4 else 0)%nat
               /\ interval w3 = truthy_id id).
  { subst w3 w4 three four. unfold effect.
    destruct (truthy_id id); vm_compute; auto. }
  destruct H4 as (Hoff4 & Hpolls4 & Hon3).
  destruct (cleared_run afterwards w4 Hoff4) as [_ Hsame].
  auto.
Qed.

Lemma watcher_termination_witness :
  is_terminal "cancelled" = true
  /\ polls (run (run (effect (Some 7%Z) "pending")
                   ([Tick; Tick] ++ [Response (Fulfilled (Some "cancelled"))]))
              [Tick; Tick; Tick])
     = 2%nat.
Proof.
  split; [reflexivity |].
  exact (eq_trans
           (proj1 (proj2 (proj2 (proj1
              (watcher_termination (Some 7%Z) "pending" "cancelled"
                 [Tick; Tick] [Tick; Tick; Tick] eq_refl)))))
           eq_refl).
Defined.

End Watcher.

(** ** The Dashboard page *)

Section DashboardFacts.
Import Js View Dashboard.
Context {Impact Order : Type}.

Abbreviation dstate := (Dashboard.state Impact Order).
Abbreviation dresponses := (Dashboard.responses Impact Order).
Abbreviation dpage := (Dashboard.page Impact Order).
Abbreviation devent := (Dashboard.event Impact Order).

(** The three guarded calls never reject, so the [try] never reaches its
    handler: [fetchData] always writes the impact cell, with the mock when
    the impact call failed. *)
Lemma fetchData_cases (isInitial : bool) (r : dresponses) (s : dstate) :
  fst (fetchData isInitial r s) =
    let data := match orders_guarded r with
                | Fulfilled d => d
                | Rejected _ => Null
                end in
    {| impact := match impact_res r with
                 | Fulfilled d => Fetched d
                 | Rejected _ => Static
                 end;
       orders := match data with
                 | Array items => Fetched items
                 | Other => Fetched []
                 | Null | Undefined => orders s
                 end;
       loading := if isInitial then false else loading s;
       currentTime := currentTime s;
       usingRealOrders := match data with
                          | Array _ | Other => true
                          | Null | Undefined => usingRealOrders s
                          end;
       roleDashboardData := match role_res r with
                            | Fulfilled (Some d) => Some d
                            | _ => roleDashboardData s
                            end |}.
Proof.
  destruct s, r as [ri rm rl rr].
  unfold fetchData, orders_guarded, impact_guarded, role_guarded.
  destruct ri, rm as [[] |], rl as [[] |], rr as [[] |], isInitial;
    reflexivity.
Qed.




(** A refresh whose requests all reject keeps the orders and the flag. *)
Lemma failed_refetch_keeps_orders (r : dresponses) (s : dstate) :
  orders_arrived r = false ->
  orders (fst (fetchData false r s)) = orders s
  /\ usingRealOrders (fst (fetchData false r s)) = usingRealOrders s
  /\ loading (fst (fetchData false r s)) = loading s.
Proof.
  unfold orders_arrived. rewrite fetchData_cases. simpl.
  by destruct (orders_guarded r) as [[] |].
Qed.

(** No fetch ever sets the flag back to false. *)
Lemma fetchData_flag_monotone (isInitial : bool) (r : dresponses) (s : dstate) :
  usingRealOrders s = true ->
  usingRealOrders (fst (fetchData isInitial r s)) = true.
Proof.
  intros H. rewrite fetchData_cases. simpl.
  by destruct (orders_guarded r) as [[] |].
Qed.

(** A visible tab starts a fetch whether or not one is in flight. *)
Lemma visibility_cases (p : dpage) (visible : bool) :
  step p (VisibilityChange visible) =
    if visibilityListener p && visible then call_fetchData false p else p.
Proof. simpl. by destruct (visibilityListener p), visible. Qed.

Lemma step_keeps_listener (p : dpage) (e : devent) :
  visibilityListener p = true -> e <> Unmount ->
  visibilityListener (step p e) = true.
Proof.
  intros Hl Hne. destruct e as [| | now | visible | i r |]; simpl; try done.
  - by destruct (refreshInterval p).
  - by destruct (clockInterval p).
  - rewrite Hl. by destruct visible.
  - by destruct (in_flight p !! i).
Qed.

Lemma run_keeps_listener (trace : list devent) :
  forall p : dpage,
    visibilityListener p = true -> Unmount ∉ trace ->
    visibilityListener (run p trace) = true.
Proof.
  induction trace as [| e trace IH]; intros p Hl Hno; [done |].
  apply not_elem_of_cons in Hno as [Hne Hno].
  apply (IH (step p e)); [apply step_keeps_listener |]; done.
Qed.

(** C5, as the code has it.  The Dashboard has no in-flight guard: on a
    mounted page, whatever happened since the mount and however many
    fetches are still in flight, the tab becoming visible starts one more
    fetch, and nothing else changes; and if the tab becomes visible once
    more before anything settles, a second fetch from that same source is
    started beside the first. *)
Theorem visibility_always_fetches :
  forall (now : Z) (role : option AuthStore.RoleDashboardData)
         (trace : list devent),
    Unmount ∉ trace ->
    let p := run (unmounted now role) (Mount :: trace) in
    let p' := step p (VisibilityChange true) in
    let p'' := step p' (VisibilityChange true) in
    in_flight p' = (in_flight p ++ [false])%list
    /\ length (in_flight p') = S (length (in_flight p))
    /\ view p' = view p
    /\ in_flight p'' = (in_flight p ++ [false; false])%list
    /\ view p'' = view p.
Proof.
  intros now role trace Hno p p' p''.
  assert (Hl : visibilityListener p = true).
  { subst p. unfold run. simpl. by apply run_keeps_listener. }
  subst p'' p'. rewrite !visibility_cases, Hl. simpl. rewrite Hl. simpl.
  rewrite length_app, <- app_assoc. simpl. repeat split. lia.
Qed.

End DashboardFacts.

(** C5 as stated fails with the visibility listener as the only source:
    the mount's fetch has settled, no timer has fired, and the tab becomes
    visible twice.  The fetch the first event started is still in flight
    when the second event starts another beside it. *)
Lemma visibility_duplicates_fetch :
  let down := {| Dashboard.impact_res := Js.Rejected "Network Error";
                 Dashboard.myOrders_res := Js.Rejected "Network Error";
                 Dashboard.list_res := Js.Rejected "Network Error";
                 Dashboard.role_res := Js.Rejected "Network Error" |} in
  let p := Dashboard.run (@Dashboard.unmounted nat nat 0 None)
             [Dashboard.Mount; Dashboard.Settle 0 down] in
  let p1 := Dashboard.step p (Dashboard.VisibilityChange true) in
  let p2 := Dashboard.step p1 (Dashboard.VisibilityChange true) in
  Dashboard.in_flight p = []
  /\ Dashboard.in_flight p1 = [false]
  /\ Dashboard.in_flight p2 = [false; false].
Proof. repeat split. Qed.

Lemma visibility_always_fetches_witness :
  let down := {| Dashboard.impact_res := Js.Rejected "Network Error";
                 Dashboard.myOrders_res := Js.Rejected "Network Error";
                 Dashboard.list_res := Js.Rejected "Network Error";
                 Dashboard.role_res := Js.Rejected "Network Error" |} in
  (@Dashboard.Unmount nat nat ∉ [Dashboard.Settle 0 down])
  /\ Dashboard.in_flight
       (Dashboard.step
          (Dashboard.step
             (Dashboard.run (@Dashboard.unmounted nat nat 0 None)
                [Dashboard.Mount; Dashboard.Settle 0 down])
             (Dashboard.VisibilityChange true))
          (Dashboard.VisibilityChange true))
     = [false; false].
Proof.
  cbv zeta.
  assert (Hno : @Dashboard.Unmount nat nat
                  ∉ [Dashboard.Settle 0
                       {| Dashboard.impact_res := Js.Rejected "Network Error";
                          Dashboard.myOrders_res := Js.Rejected "Network Error";
                          Dashboard.list_res := Js.Rejected "Network Error";
                          Dashboard.role_res := Js.Rejected "Network Error" |}]).
  { intros Hin. apply list_elem_of_singleton in Hin. discriminate. }
  split; [exact Hno |].
  exact (proj1 (proj2 (proj2 (proj2
           (visibility_always_fetches 0 None _ Hno))))).
Defined.

(** C4 on the Dashboard.  After a first load with live impact figures
    [figures] and live orders, a refresh whose requests all reject puts the
    mock impact back on display; the orders and the flag stay as they
    were. *)
Theorem failed_refetch_shows_mock_impact :
  forall (Impact Order : Type) (figures : Impact) (rows : list Order) (now : Z),
    let loaded := {| Dashboard.impact_res := Js.Fulfilled figures;
                     Dashboard.myOrders_res := Js.Fulfilled (View.Array rows);
                     Dashboard.list_res := Js.Rejected "not asked";
                     Dashboard.role_res := Js.Fulfilled None |} in
    let down := {| Dashboard.impact_res := Js.Rejected "Network Error";
                   Dashboard.myOrders_res := Js.Rejected "Network Error";
                   Dashboard.list_res := Js.Rejected "Network Error";
                   Dashboard.role_res := Js.Rejected "Network Error" |} in
    let p1 := Dashboard.run (Dashboard.unmounted now None)
                [Dashboard.Mount; Dashboard.Settle 0 loaded] in
    let p2 := Dashboard.run p1
                [Dashboard.RefreshTick; Dashboard.Settle 0 down] in
    Dashboard.impact (Dashboard.view p1) = View.Fetched figures
    /\ Dashboard.impact (Dashboard.view p2) = View.Static
    /\ Dashboard.orders (Dashboard.view p2) = View.Fetched rows
    /\ Dashboard.usingRealOrders (Dashboard.view p2) = true.
Proof. intros. repeat split. Qed.

(** ** TrackingPage.tsx *)

Section RowFacts.
Import Js Rows.

(** A map over response rows yields the callback's results when every row
    is an object, and throws when one is null. *)
Lemma imap_rows_cases {A B : Type} (xs : list (option A)) :
  forall f : nat -> A -> B,
    imap_rows f xs
    = if all_objects xs then Normal (imap f (objects xs)) else Throw "TypeError".
Proof.
  induction xs as [| [x |] rest IH]; intros f; [done | | done].
  cbn [imap_rows all_objects forallb andb]. rewrite IH.
  fold (all_objects rest). by destruct (all_objects rest).
Qed.

Lemma map_rows_cases {A B : Type} (f : A -> B) (xs : list (option A)) :
  map_rows f xs
  = if all_objects xs then Normal (f <$> objects xs) else Throw "TypeError".
Proof.
  unfold map_rows. rewrite imap_rows_cases.
  destruct (all_objects xs); [| done]. f_equal. apply (imap_const f).
Qed.

Lemma length_objects {A : Type} (xs : list (option A)) :
  all_objects xs = true -> length (objects xs) = length xs.
Proof.
  induction xs as [| [x |] rest IH]; [done | | done].
  intros Hall. change (S (length (objects rest)) = S (length rest)).
  f_equal. by apply IH.
Qed.

End RowFacts.

Section TrackingFacts.
Import Js View Rows TrackingPage.
Context {Restaurant RawNgo Ngo RawDriver Driver Job Delivery : Type}.
Variable ngo_row : RawNgo -> Ngo.
Variable driver_row : RawDriver -> Driver.
Variable delivery_row : Job -> Delivery.

Abbreviation tstate := (TrackingPage.state Restaurant Ngo Driver Delivery).
Abbreviation tresponses := (TrackingPage.responses Restaurant RawNgo RawDriver Job).
Abbreviation tpage := (TrackingPage.page Restaurant Ngo Driver Delivery).
Abbreviation tevent := (TrackingPage.event Restaurant RawNgo RawDriver Job).
Abbreviation tstep := (TrackingPage.step ngo_row driver_row delivery_row).
Abbreviation trun := (TrackingPage.run ngo_row driver_row delivery_row).

(** A fetch either fails and leaves the state exactly as it was, or goes
    through the four collections in order: each cell is refreshed from its
    rows as long as no collection so far held a null row, and [isLive] is
    set when none did. *)
Lemma tracking_fetchData_cases (r : tresponses) (s : tstate) :
  fst (TrackingPage.fetchData ngo_row driver_row delivery_row r s) =
    match locations_res r, jobs_res r with
    | Fulfilled (Some loc), Fulfilled jobs =>
        {| RESTAURANTS := refreshed (fun l => l) (restaurants loc) (RESTAURANTS s);
           NGOS :=
             if well_formed (ngos loc)
             then refreshed (fun l => ngo_row <$> objects l) (ngos loc) (NGOS s)
             else NGOS s;
           DRIVERS :=
             if well_formed (ngos loc) && well_formed (drivers loc)
             then refreshed (fun l => driver_row <$> objects l) (drivers loc)
                    (DRIVERS s)
             else DRIVERS s;
           ACTIVE_DELIVERIES :=
             if well_formed (ngos loc) && well_formed (drivers loc)
                && well_formed jobs
             then refreshed (fun l => delivery_row <$> objects l) jobs
                    (ACTIVE_DELIVERIES s)
             else ACTIVE_DELIVERIES s;
           isLive :=
             if well_formed (ngos loc) && well_formed (drivers loc)
                && well_formed jobs
             then true else isLive s;
           tick := tick s |}
    | _, _ => s
    end.
Proof.
  destruct s, r as [[[[lr ln ld] |] | e] [jobs | e']]; try reflexivity.
  destruct lr as [[| x lr] |], ln as [[| n ln] |], ld as [[| dr ld] |],
           jobs as [[| j jobs] |];
    unfold TrackingPage.fetchData, try_stmt, bind_stmt, when_nonempty, lift, ret;
    cbn -[map_rows all_objects objects];
    repeat (first [ rewrite map_rows_cases
                  | match goal with
                    | |- context [all_objects (?x :: ?l)] =>
                        destruct (all_objects (x :: l))
                    end ];
            cbn -[map_rows all_objects objects]);
    reflexivity.
Qed.

(** A fetch that fails (a request rejects, or the locations body is null)
    leaves the whole state as it was. *)
Lemma failed_fetch_keeps_state (r : tresponses) (s : tstate) :
  succeeded r = false ->
  fst (TrackingPage.fetchData ngo_row driver_row delivery_row r s) = s.
Proof.
  unfold succeeded. rewrite tracking_fetchData_cases.
  by destruct (locations_res r) as [[loc |] | e], (jobs_res r) as [jobs | e'].
Qed.









End TrackingFacts.



(** ** More on the order watcher *)

Section WatcherMore.
Import Js SurplusPage SurplusWatch.

Lemma ticks_cons (e : event) (trace : list event) :
  ticks (e :: trace) = ((if decide (e = Tick) then 1 else 0) + ticks trace)%nat.
Proof.
  unfold ticks. rewrite filter_cons. by destruct (decide (e = Tick)).
Qed.

Lemma running_step (w : watcher) (e : event) :
  interval w = true -> stops e = false ->
  interval (step w e) = true
  /\ polls (step w e) = ((if decide (e = Tick) then 1 else 0) + polls w)%nat.
Proof.
  intros Hon Hstop. destruct e as [| r |]; simpl in *.
  - rewrite Hon. auto.
  - rewrite on_response_cases. destruct r as [[status |] | err]; simpl; auto.
    rewrite Hstop. auto.
  - discriminate.
Qed.

Lemma running_run (trace : list event) :
  forall w : watcher,
    interval w = true ->
    Forall (fun e => stops e = false) trace ->
    interval (run w trace) = true
    /\ polls (run w trace) = (ticks trace + polls w)%nat.
Proof.
  induction trace as [| e trace IH]; intros w Hon Hall; [auto |].
  apply Forall_cons in Hall as [He Hall].
  destruct (running_step w e Hon He) as [Hon' Hpolls].
  destruct (IH (step w e) Hon' Hall) as [H1 H2].
  unfold run in *. simpl. rewrite H1, H2, Hpolls, ticks_cons.
  split; [reflexivity | lia].
Qed.

(** The watcher of an order with a usable id goes on polling as long as no
    response carries a terminal status and the effect is not cleaned up:
    failed polls, polls without data and non-terminal statuses leave the
    interval set, and every tick of the interval issues one poll. *)
Theorem watcher_keeps_polling :
  forall (createdOrder_id : option Z) (stage : string) (trace : list event),
    truthy_id createdOrder_id = true ->
    Forall (fun e => stops e = false) trace ->
    interval (run (effect createdOrder_id stage) trace) = true
    /\ polls (run (effect createdOrder_id stage) trace) = ticks trace.
Proof.
  intros id stage trace Hid Hall.
  destruct (running_run trace (effect id stage)) as [Hon Hpolls];
    [exact Hid | exact Hall |].
  rewrite Hpolls. simpl. split; [exact Hon | lia].
Qed.

Lemma watcher_keeps_polling_witness :
  truthy_id (Some 12%Z) = true
  /\ Forall (fun e => stops e = false)
       [Tick; Response (Rejected "timeout"); Tick;
        Response (Fulfilled (Some "in_transit")); Tick]
  /\ polls (run (effect (Some 12%Z) "pending")
              [Tick; Response (Rejected "timeout"); Tick;
               Response (Fulfilled (Some "in_transit")); Tick]) = 3%nat.
Proof.
  assert (Hall : Forall (fun e => stops e = false)
            [Tick; Response (Rejected "timeout"); Tick;
             Response (Fulfilled (Some "in_transit")); Tick]).
  { repeat constructor. }
  split; [reflexivity |]. split; [exact Hall |].
  exact (proj2 (watcher_keeps_polling (Some 12%Z) "pending" _ eq_refl Hall)).
Defined.

(** Without a usable order id (no order yet, an order without id, or the
    id 0) the effect sets no interval: whatever the event loop delivers, no
    poll is ever issued. *)
Theorem watcher_needs_an_id :
  forall (createdOrder_id : option Z) (stage : string) (trace : list event),
    truthy_id createdOrder_id = false ->
    polls (run (effect createdOrder_id stage) trace) = 0%nat
    /\ interval (run (effect createdOrder_id stage) trace) = false.
Proof.
  intros id stage trace Hid.
  destruct (cleared_run trace (effect id stage) Hid) as [Hoff Hpolls].
  split; [exact Hpolls | exact Hoff].
Qed.

Lemma watcher_needs_an_id_witness :
  truthy_id (Some 0%Z) = false
  /\ polls (run (effect (Some 0%Z) "pending") [Tick; Tick; Tick]) = 0%nat.
Proof.
  split; [reflexivity |].
  exact (proj1 (watcher_needs_an_id (Some 0%Z) "pending" [Tick; Tick; Tick]
                  eq_refl)).
Defined.

End WatcherMore.

(** ** SurplusPage.tsx: the stage tracker *)

Section StageTracker.
Import SurplusForm.

Lemma findIndex_from_ge (keys : list string) (orderStage : string) :
  forall from : Z,
    findIndex_from from keys orderStage = (-1)%Z
    \/ (from <= findIndex_from from keys orderStage)%Z.
Proof.
  induction keys as [| key rest IH]; intros from; simpl; [by left |].
  destruct (String.eqb key orderStage); [right; lia |].
  destruct (IH (from + 1)%Z) as [-> | H]; [by left | right; lia].
Qed.

(** What [findIndex] finds, by position: an index is the one found exactly
    when its key is the stage and no earlier key is. *)
Lemma findIndex_from_spec (keys : list string) (orderStage : string) :
  forall (from : Z) (i : nat),
    (0 <= from)%Z ->
    findIndex_from from keys orderStage = (from + Z.of_nat i)%Z
    <-> keys !! i = Some orderStage
        /\ forall j, (j < i)%nat -> keys !! j <> Some orderStage.
Proof.
  induction keys as [| key rest IH]; intros from i Hfrom; cbn [findIndex_from].
  - split; [lia | intros [H _]; by rewrite lookup_nil in H].
  - destruct (String.eqb_spec key orderStage) as [-> | Hne].
    + destruct i as [| i].
      * split; [intros _; split; [done | lia] | lia].
      * split; [lia |]. intros [_ H]. destruct (H 0%nat); [lia | done].
    + destruct i as [| i].
      * split; [| intros [[=] _]; done].
        destruct (findIndex_from_ge rest orderStage (from + 1)%Z); lia.
      * change ((key :: rest) !! S i) with (rest !! i).
        replace (from + Z.of_nat (S i))%Z
          with ((from + 1) + Z.of_nat i)%Z by lia.
        rewrite (IH (from + 1)%Z i) by lia.
        split; intros [H1 H2]; (split; [exact H1 |]).
        -- intros [| j] Hj; [simpl; congruence |].
           change ((key :: rest) !! S j) with (rest !! j). apply H2. lia.
        -- intros j Hj. apply (H2 (S j)). lia.
Qed.

Lemma stages_distinct : NoDup ORDER_STAGES.
Proof.
  apply (bool_decide_unpack _). vm_compute. exact I.
Qed.

(** The stage tracker marks as current the one stage whose key is the order
    status, and as complete exactly the stages before it; for a status that
    is none of the five keys (cancelled and expired among them) no stage is
    marked current or complete. *)
Theorem stage_tracker_marks :
  forall (orderStage : string) (thisIdx : nat),
    (isCurrent orderStage thisIdx = true
     <-> ORDER_STAGES !! thisIdx = Some orderStage)
    /\ (isComplete orderStage thisIdx = true
        <-> exists later, (thisIdx < later)%nat
                          /\ ORDER_STAGES !! later = Some orderStage)
    /\ (orderStage ∉ ORDER_STAGES ->
        isCurrent orderStage thisIdx = false
        /\ isComplete orderStage thisIdx = false).
Proof.
  intros orderStage thisIdx.
  assert (Hfound : forall i : nat,
             stageIdx orderStage = Z.of_nat i
             <-> ORDER_STAGES !! i = Some orderStage).
  { intros i. unfold stageIdx.
    rewrite (findIndex_from_spec ORDER_STAGES orderStage 0 i) by lia.
    split; [by intros [H _] | intros H; split; [exact H |]].
    intros j Hj Hj'.
    pose proof (NoDup_lookup _ _ _ _ stages_distinct H Hj'). lia. }
  assert (Hcases : stageIdx orderStage = (-1)%Z
                   \/ exists i : nat, stageIdx orderStage = Z.of_nat i).
  { destruct (findIndex_from_ge ORDER_STAGES orderStage 0) as [H | H];
      [by left | right].
    exists (Z.to_nat (stageIdx orderStage)). unfold stageIdx. lia. }
  unfold isCurrent, isComplete.
  split; [| split].
  - rewrite Z.eqb_eq. rewrite <- Hfound. split; intros H; by rewrite H.
  - rewrite Z.ltb_lt. split.
    + intros Hlt. destruct Hcases as [H | [i Hi]]; [lia |].
      exists i. split; [lia | by apply Hfound].
    + intros (later & Hlt & Hlater). apply Hfound in Hlater. lia.
  - intros Hnot. destruct Hcases as [H | [i Hi]].
    + rewrite H. split; [apply Z.eqb_neq | apply Z.ltb_ge]; lia.
    + apply Hfound in Hi. destruct Hnot.
      by apply list_elem_of_lookup_2 in Hi.
Qed.

End StageTracker.

(** ** SurplusPage.tsx: the form wizard and the order history *)

Section Wizard.
Import Js View SurplusForm.
Context {Prediction Order : Type}.

Abbreviation wpage := (SurplusForm.page Prediction Order).
Abbreviation wevent := (SurplusForm.event Prediction Order).

Lemma shows_step_eq (n : nat) (p : wpage) :
  shows_step n p = true -> step p = n /\ submitted p = false.
Proof.
  unfold shows_step. intros H. apply andb_prop in H as [H1 H2].
  apply Nat.eqb_eq in H1. by destruct (submitted p).
Qed.

Lemma filled_acceptable (f : Form) :
  filled f = true -> acceptable (payload_of f).
Proof.
  unfold filled, acceptable. intros H. apply andb_prop in H as [H1 H2].
  split; [| exact H2]. simpl in *.
  destruct (String.eqb_spec (food_description f) ""); [discriminate | done].
Qed.

Lemma handleSubmit_settle_cases (r : settled (option created)) (p : wpage) :
  fst (handleSubmit_settle r p) =
    match r with
    | Fulfilled (Some c) =>
        setSubmitting false
          (fetchMyOrders_call
             (setSubmitted true
                (setOrderStage (stage_or_pending (created_status c))
                   (setCreatedOrder (Some c) p))))
    | Fulfilled None => setSubmitting false (setCreatedOrder None p)
    | Rejected _ => setSubmitting false p
    end.
Proof. destruct r as [[c |] | e]; reflexivity. Qed.

Lemma fetchMyOrders_settle_cases (r : orders_responses Order) (p : wpage) :
  fetchMyOrders_settle r p =
    (setOrdersLoading false
       match catch (myOrders_res r) (fun _ => list_res r) with
       | Fulfilled (Array items) => setMyOrders items p
       | _ => p
       end,
     Normal tt).
Proof.
  unfold fetchMyOrders_settle, finally_stmt, try_stmt, bind_stmt, lift.
  destruct (myOrders_res r) as [[] |], (list_res r) as [[] |]; reflexivity.
Qed.

Lemma handlePreset_settle_cases (r : settled Prediction) (estimate : Prediction)
    (p : wpage) :
  fst (handlePreset_settle r estimate p) =
    setPrediction (Some match r with
                        | Fulfilled pred => pred
                        | Rejected _ => estimate
                        end) p.
Proof. destruct r; reflexivity. Qed.

Lemma wizard_ok_initial : wizard_ok (@SurplusForm.initial Prediction Order).
Proof. repeat split; auto. discriminate. Qed.

Ltac wizard_done :=
  repeat split; simpl; auto;
  try (intros; simpl in *; first [discriminate | lia]).

Lemma wizard_ok_handle (p : wpage) (e : wevent) :
  wizard_ok p -> wizard_ok (handle p e).
Proof.
  intros Hok. pose proof Hok as (Hstep & Hsent & Hfly & Hload).
  destruct e as [| text | value | value | i | | r estimate | | | | r | | | r];
    cbn [handle].
  - wizard_done.
  - destruct (shows_step 1 p) eqn:H1; [| exact Hok].
    apply shows_step_eq in H1 as [H1 _]. wizard_done.
  - destruct (shows_step 1 p) eqn:H1; [| exact Hok].
    apply shows_step_eq in H1 as [H1 _]. wizard_done.
  - destruct (shows_step 1 p) eqn:H1; [| exact Hok].
    apply shows_step_eq in H1 as [H1 _]. wizard_done.
  - destruct (shows_step 1 p) eqn:H1; [| exact Hok].
    apply shows_step_eq in H1 as [H1 _].
    destruct (FOOD_PRESETS !! i); [| exact Hok]. wizard_done.
  - destruct (shows_step 1 p) eqn:H1; [| exact Hok].
    unfold clickPredict.
    destruct (filled (form p)) eqn:Hfilled; [| exact Hok]. simpl.
    destruct (prediction p); wizard_done.
  - destruct (predictions_in_flight p); [exact Hok |].
    rewrite handlePreset_settle_cases. wizard_done.
  - destruct (shows_step 2 p) eqn:H2.
    + destruct (prediction p); [| exact Hok]. wizard_done.
    + destruct (shows_step 3 p) eqn:H3; [| exact Hok].
      apply shows_step_eq in H3 as [H3 _].
      destruct Hstep as [Hs | [_ Hf]]; [congruence |]. wizard_done.
  - destruct (shows_step 2 p) eqn:H2; [| exact Hok].
    apply shows_step_eq in H2 as [H2 _].
    destruct (prediction p); [| exact Hok].
    destruct Hstep as [Hs | [_ Hf]]; [congruence |]. wizard_done.
  - destruct (shows_step 3 p && negb (submitting p)) eqn:H3; [| exact Hok].
    apply andb_prop in H3 as [H3 Hsub].
    apply shows_step_eq in H3 as [H3 _].
    destruct (submitting p) eqn:Hs; [discriminate |].
    destruct Hstep as [Hs1 | [_ Hf]]; [congruence |].
    split; [right; auto |]. split; [| wizard_done].
    simpl. apply Forall_app. split; [exact Hsent |].
    constructor; [by apply filled_acceptable | constructor].
  - destruct (creates_in_flight p) as [| n] eqn:Hn; [exact Hok |].
    assert (n = 0%nat) as -> by (destruct (submitting p); lia).
    rewrite handleSubmit_settle_cases.
    destruct r as [[c |] | err]; wizard_done.
  - destruct (submitted p); [| exact Hok]. wizard_done.
  - destruct (ordersLoading p); [exact Hok |]. wizard_done.
  - destruct (orders_in_flight p); [exact Hok |].
    rewrite fetchMyOrders_settle_cases. simpl.
    destruct (catch (myOrders_res r) (fun _ => list_res r)) as [[] |];
      wizard_done.
Qed.

Lemma wizard_ok_run (trace : list wevent) :
  forall p : wpage, wizard_ok p -> wizard_ok (SurplusForm.run p trace).
Proof.
  induction trace as [| e trace IH]; intros p Hok; [done |].
  apply (IH (handle p e)), wizard_ok_handle, Hok.
Qed.

(** Whatever the user does and however the requests settle, every
    [surplusAPI.create] request the page sends carries a non-empty food
    description and a quantity that is neither 0 nor NaN, and the wizard is
    on step 1, 2 or 3. *)
Theorem create_requests_are_filled :
  forall trace : list wevent,
    let p := SurplusForm.run SurplusForm.initial trace in
    Forall acceptable (sent p)
    /\ (step p = 1 \/ step p = 2 \/ step p = 3)%nat.
Proof.
  intros trace p.
  destruct (wizard_ok_run trace _ wizard_ok_initial) as (Hstep & Hsent & _ & _).
  split; [exact Hsent |]. fold p in Hstep. tauto.
Qed.

(** The submit button's guard holds: at most one create request is in
    flight at any time, one exactly while [submitting] is set, and a click
    on the button while one is in flight sends nothing. *)
Theorem one_create_in_flight :
  forall trace : list wevent,
    let p := SurplusForm.run SurplusForm.initial trace in
    (creates_in_flight p <= 1)%nat
    /\ (submitting p = true <-> creates_in_flight p = 1%nat)
    /\ (creates_in_flight p = 1%nat -> handle p ClickSubmit = p).
Proof.
  intros trace p.
  destruct (wizard_ok_run trace _ wizard_ok_initial) as (_ & _ & Hfly & _).
  fold p in Hfly.
  destruct (submitting p) eqn:Hs; rewrite Hfly.
  - split; [lia |]. split; [done |]. intros _. cbn [handle].
    rewrite Hs. by rewrite andb_false_r.
  - split; [lia |]. split; [split; [done | lia] | lia].
Qed.

(** The history spinner never sticks: whenever no history request is in
    flight, [ordersLoading] is false, whether the requests succeeded,
    failed or returned something that is no array. *)
Theorem history_spinner_clears :
  forall trace : list wevent,
    let p := SurplusForm.run SurplusForm.initial trace in
    orders_in_flight p = 0%nat -> ordersLoading p = false.
Proof.
  intros trace p Hnone.
  destruct (wizard_ok_run trace _ wizard_ok_initial) as (_ & _ & _ & Hload).
  fold p in Hload. destruct (ordersLoading p); [| done].
  specialize (Hload eq_refl). lia.
Qed.

(** A history fetch that settles always clears the loading flag; the list
    shown changes only when the body is an array (that of [myOrders], or of
    [list] when [myOrders] rejected), so a failure of both calls or a body
    that is no array leaves the history as it was; nothing else on the page
    changes. *)
Theorem history_fetch_settles :
  forall (r : orders_responses Order) (p : wpage),
    let p' := fst (fetchMyOrders_settle r p) in
    snd (fetchMyOrders_settle r p) = Normal tt
    /\ ordersLoading p' = false
    /\ myOrders p' = match myOrders_res r, list_res r with
                     | Fulfilled (Array items), _ => items
                     | Fulfilled _, _ => myOrders p
                     | Rejected _, Fulfilled (Array items) => items
                     | Rejected _, _ => myOrders p
                     end
    /\ setOrdersLoading false (setMyOrders (myOrders p') p) = p'.
Proof.
  intros r p p'. subst p'. rewrite fetchMyOrders_settle_cases. simpl.
  destruct (myOrders_res r) as [[] |], (list_res r) as [[] |];
    repeat split; by destruct p.
Qed.

End Wizard.

Lemma history_spinner_clears_witness :
  let trace := [@SurplusForm.Mount nat nat;
                SurplusForm.OrdersSettle
                  {| SurplusForm.myOrders_res := Js.Rejected "Network Error";
                     SurplusForm.list_res := Js.Rejected "Network Error" |}] in
  SurplusForm.orders_in_flight (SurplusForm.run SurplusForm.initial trace) = 0%nat
  /\ SurplusForm.ordersLoading (SurplusForm.run SurplusForm.initial trace) = false.
Proof.
  cbv zeta. split; [reflexivity |].
  exact (history_spinner_clears
           [@SurplusForm.Mount nat nat;
            SurplusForm.OrdersSettle
              {| SurplusForm.myOrders_res := Js.Rejected "Network Error";
                 SurplusForm.list_res := Js.Rejected "Network Error" |}] eq_refl).
Defined.


(** ** More on the Dashboard *)

Section DashboardMore.
Import Js View Dashboard PageEvents.
Context {Impact Order : Type}.

Abbreviation dpage' := (Dashboard.page Impact Order).
Abbreviation devent' := (Dashboard.event Impact Order).

Lemma step_keeps_loaded (p : dpage') (e : devent') :
  loading (view p) = false -> loading (view (step p e)) = false.
Proof.
  intros Hl. destruct e as [| | now | visible | i r |]; simpl; try done.
  - by destruct (refreshInterval p).
  - by destruct (clockInterval p).
  - by destruct (visibilityListener p), visible.
  - destruct (in_flight p !! i) as [isInitial |]; [| done]. simpl.
    rewrite fetchData_cases. simpl. by destruct isInitial.
Qed.

Lemma run_keeps_loaded (trace : list devent') :
  forall p : dpage',
    loading (view p) = false -> loading (view (run p trace)) = false.
Proof.
  induction trace as [| e trace IH]; intros p Hl; [done |].
  apply (IH (step p e)), step_keeps_loaded, Hl.
Qed.

(** When the initial fetch settles the loading flag is cleared, whatever
    the three requests did (all of them may have failed), and nothing that
    happens later sets it again. *)
Theorem loading_ends_with_initial_fetch :
  forall (p : dpage') (i : nat) (r : Dashboard.responses Impact Order)
         (later : list devent'),
    in_flight p !! i = Some true ->
    loading (view (run (step p (Settle i r)) later)) = false.
Proof.
  intros p i r later Hfly. apply run_keeps_loaded.
  simpl. rewrite Hfly. simpl. by rewrite fetchData_cases.
Qed.

(** A refresh whose orders calls both fail (or return null) changes neither
    the orders shown, nor [usingRealOrders], nor the loading flag, nor the
    clock. *)
Theorem failed_refresh_keeps_orders_shown :
  forall (p : dpage') (i : nat) (r : Dashboard.responses Impact Order),
    in_flight p !! i = Some false ->
    orders_arrived r = false ->
    let p' := step p (Settle i r) in
    orders (view p') = orders (view p)
    /\ usingRealOrders (view p') = usingRealOrders (view p)
    /\ loading (view p') = loading (view p)
    /\ currentTime (view p') = currentTime (view p).
Proof.
  intros p i r Hfly Hfail p'. subst p'. simpl. rewrite Hfly. simpl.
  rewrite fetchData_cases. unfold orders_arrived in Hfail. simpl.
  by destruct (orders_guarded r) as [[] |].
Qed.

Lemma torn_down_step (p : dpage') (e : devent') :
  torn_down p -> e <> Mount ->
  torn_down (step p e)
  /\ (length (in_flight (step p e)) <= length (in_flight p))%nat
  /\ currentTime (view (step p e)) = currentTime (view p).
Proof.
  intros (H1 & H2 & H3) Hne. unfold torn_down.
  destruct e as [| | now | visible | i r |]; simpl; try done.
  - by rewrite H1.
  - by rewrite H2.
  - by rewrite H3.
  - destruct (in_flight p !! i) as [isInitial |] eqn:Hi; [| done]. simpl.
    rewrite fetchData_cases. simpl. repeat split; try done.
    rewrite length_delete by eauto. lia.
Qed.

Lemma torn_down_run (trace : list devent') :
  forall p : dpage',
    torn_down p -> Mount ∉ trace ->
    torn_down (run p trace)
    /\ (length (in_flight (run p trace)) <= length (in_flight p))%nat
    /\ currentTime (view (run p trace)) = currentTime (view p).
Proof.
  induction trace as [| e trace IH]; intros p Hdown Hno; [done |].
  apply not_elem_of_cons in Hno as [Hne Hno].
  destruct (torn_down_step p e Hdown (not_eq_sym Hne)) as (Hdown' & Hlen & Htime).
  destruct (IH (step p e) Hdown' Hno) as (H1 & H2 & H3).
  unfold run in *. simpl. split; [exact H1 |]. split; [lia | congruence].
Qed.

(** After the unmount clean-up no timer and no visibility change starts a
    fetch or moves the clock: whatever the event loop still delivers, the
    number of fetches in flight can only go down. *)
Theorem unmount_stops_fetching :
  forall (p : dpage') (later : list devent'),
    Mount ∉ later ->
    let q := step p Unmount in
    (length (in_flight (run q later)) <= length (in_flight p))%nat
    /\ currentTime (view (run q later)) = currentTime (view p)
    /\ refreshInterval (run q later) = false
    /\ clockInterval (run q later) = false
    /\ visibilityListener (run q later) = false.
Proof.
  intros p later Hno q.
  destruct (torn_down_run later q) as ((H1 & H2 & H3) & Hlen & Htime);
    [by repeat split | exact Hno |].
  auto.
Qed.

End DashboardMore.

Lemma loading_ends_with_initial_fetch_witness :
  let p := Dashboard.run (@Dashboard.unmounted nat nat 0 None) [Dashboard.Mount] in
  let down := {| Dashboard.impact_res := Js.Rejected "Network Error";
                 Dashboard.myOrders_res := Js.Rejected "Network Error";
                 Dashboard.list_res := Js.Rejected "Network Error";
                 Dashboard.role_res := Js.Rejected "Network Error" |} in
  Dashboard.in_flight p !! 0%nat = Some true
  /\ Dashboard.loading
       (Dashboard.view
          (Dashboard.run (Dashboard.step p (Dashboard.Settle 0 down))
             [Dashboard.RefreshTick])) = false.
Proof.
  cbv zeta. split; [reflexivity |].
  exact (loading_ends_with_initial_fetch
           (Dashboard.run (@Dashboard.unmounted nat nat 0 None) [Dashboard.Mount])
           0
           {| Dashboard.impact_res := Js.Rejected "Network Error";
              Dashboard.myOrders_res := Js.Rejected "Network Error";
              Dashboard.list_res := Js.Rejected "Network Error";
              Dashboard.role_res := Js.Rejected "Network Error" |}
           [Dashboard.RefreshTick] eq_refl).
Defined.

Lemma failed_refresh_keeps_orders_shown_witness :
  let loaded := {| Dashboard.impact_res := Js.Fulfilled 7%nat;
                   Dashboard.myOrders_res := Js.Fulfilled (View.Array [3%nat]);
                   Dashboard.list_res := Js.Rejected "not asked";
                   Dashboard.role_res := Js.Fulfilled None |} in
  let down := {| Dashboard.impact_res := Js.Rejected "Network Error";
                 Dashboard.myOrders_res := Js.Rejected "Network Error";
                 Dashboard.list_res := Js.Rejected "Network Error";
                 Dashboard.role_res := Js.Rejected "Network Error" |} in
  let p := Dashboard.run (@Dashboard.unmounted nat nat 0 None)
             [Dashboard.Mount; Dashboard.Settle 0 loaded; Dashboard.RefreshTick] in
  Dashboard.in_flight p !! 0%nat = Some false
  /\ Dashboard.orders_arrived down = false
  /\ Dashboard.orders (Dashboard.view (Dashboard.step p (Dashboard.Settle 0 down)))
     = View.Fetched [3%nat].
Proof.
  cbv zeta. split; [reflexivity |]. split; [reflexivity |].
  exact (eq_trans
           (proj1 (failed_refresh_keeps_orders_shown
              (Dashboard.run (@Dashboard.unmounted nat nat 0 None)
                 [Dashboard.Mount;
                  Dashboard.Settle 0
                    {| Dashboard.impact_res := Js.Fulfilled 7%nat;
                       Dashboard.myOrders_res := Js.Fulfilled (View.Array [3%nat]);
                       Dashboard.list_res := Js.Rejected "not asked";
                       Dashboard.role_res := Js.Fulfilled None |};
                  Dashboard.RefreshTick])
              0
              {| Dashboard.impact_res := Js.Rejected "Network Error";
                 Dashboard.myOrders_res := Js.Rejected "Network Error";
                 Dashboard.list_res := Js.Rejected "Network Error";
                 Dashboard.role_res := Js.Rejected "Network Error" |}
              eq_refl eq_refl))
           eq_refl).
Defined.

Lemma unmount_stops_fetching_witness :
  (@Dashboard.Mount nat nat ∉ [Dashboard.RefreshTick; Dashboard.VisibilityChange true])
  /\ Dashboard.refreshInterval
       (Dashboard.run
          (Dashboard.step
             (Dashboard.run (@Dashboard.unmounted nat nat 0 None) [Dashboard.Mount])
             Dashboard.Unmount)
          [Dashboard.RefreshTick; Dashboard.VisibilityChange true]) = false.
Proof.
  assert (Hno : @Dashboard.Mount nat nat
                ∉ [Dashboard.RefreshTick; Dashboard.VisibilityChange true]).
  { intros Hin. repeat (apply elem_of_cons in Hin as [Hin | Hin]; [discriminate |]).
    by apply elem_of_nil in Hin. }
  split; [exact Hno |].
  exact (proj1 (proj2 (proj2
           (unmount_stops_fetching
              (Dashboard.run (@Dashboard.unmounted nat nat 0 None) [Dashboard.Mount])
              [Dashboard.RefreshTick; Dashboard.VisibilityChange true] Hno)))).
Defined.

(** ** The Dashboard's derived lists *)

Section DashboardListsFacts.
Import DashboardLists.
Context {Order : Type}.
Variable status : Order -> string.

(** Every order is counted exactly once: in the active list, in
    [completedToday], or it is a cancelled one, which the Dashboard counts
    nowhere; and no order in the active list is delivered or cancelled. *)
Theorem orders_counted_once :
  forall orders : list Order,
    (length (activeOrders status orders) + completedToday status orders
     + length (filter (fun o => status o = "cancelled") orders)
     = length orders)%nat
    /\ Forall (fun o => status o <> "delivered" /\ status o <> "cancelled")
         (activeOrders status orders).
Proof.
  intros orders. unfold activeOrders, completedToday.
  induction orders as [| o orders [IHlen IHall]]; [split; [done | constructor] |].
  rewrite !filter_cons. unfold closed in *.
  destruct (String.eqb_spec (status o) "delivered") as [Hd | Hd];
    destruct (String.eqb_spec (status o) "cancelled") as [Hc | Hc];
    simpl; repeat case_decide; try done; try congruence;
    (split; [simpl; lia | try constructor; auto]).
Qed.

End DashboardListsFacts.

(** ** More on the TrackingPage *)

Section TrackingMore.
Import Js View TrackingPage PageEvents.
Context {Restaurant RawNgo Ngo RawDriver Driver Job Delivery : Type}.
Variable ngo_row : RawNgo -> Ngo.
Variable driver_row : RawDriver -> Driver.
Variable delivery_row : Job -> Delivery.

Abbreviation tpage' := (TrackingPage.page Restaurant Ngo Driver Delivery).
Abbreviation tevent' := (TrackingPage.event Restaurant RawNgo RawDriver Job).

(** While every fetch fails (a request rejects, or the locations body is
    null) nothing on display changes: the four collections and [isLive] stay
    as they were, however many refreshes are tried. *)
Theorem failed_fetches_change_nothing :
  forall (p : tpage') (trace : list tevent'),
    Forall no_success trace ->
    let q := TrackingPage.run ngo_row driver_row delivery_row p trace in
    RESTAURANTS (view q) = RESTAURANTS (view p)
    /\ NGOS (view q) = NGOS (view p)
    /\ DRIVERS (view q) = DRIVERS (view p)
    /\ ACTIVE_DELIVERIES (view q) = ACTIVE_DELIVERIES (view p)
    /\ isLive (view q) = isLive (view p).
Proof.
  intros p trace Hall. revert p.
  induction Hall as [| e trace He Hall IH]; intros p; [done |].
  cbv zeta in *. unfold TrackingPage.run in *. simpl.
  destruct (IH (TrackingPage.step ngo_row driver_row delivery_row p e))
    as (H1 & H2 & H3 & H4 & H5).
  rewrite H1, H2, H3, H4, H5. clear IH H1 H2 H3 H4 H5.
  destruct e as [| | | r |]; simpl; try done.
  - by destruct (refreshInterval p).
  - by destruct (tickInterval p).
  - destruct (in_flight p); [done |]. simpl in *.
    by rewrite (failed_fetch_keeps_state ngo_row driver_row delivery_row r _ He).
Qed.

End TrackingMore.

Lemma failed_fetches_change_nothing_witness :
  let down := {| TrackingPage.locations_res := Js.Rejected "Network Error";
                 TrackingPage.jobs_res := Js.Fulfilled (Some [Some 5%nat]) |} in
  let trace := [@TrackingPage.Mount nat nat nat nat;
                TrackingPage.Settle down; TrackingPage.RefreshTick;
                TrackingPage.Settle down] in
  Forall (@PageEvents.no_success nat nat nat nat) trace
  /\ TrackingPage.ACTIVE_DELIVERIES
       (TrackingPage.view
          (@TrackingPage.run nat nat nat nat nat nat nat id id id
             TrackingPage.unmounted trace)) = View.Static.
Proof.
  cbv zeta.
  assert (Hall : Forall (@PageEvents.no_success nat nat nat nat)
            [TrackingPage.Mount;
             TrackingPage.Settle
               {| TrackingPage.locations_res := Js.Rejected "Network Error";
                  TrackingPage.jobs_res := Js.Fulfilled (Some [Some 5%nat]) |};
             TrackingPage.RefreshTick;
             TrackingPage.Settle
               {| TrackingPage.locations_res := Js.Rejected "Network Error";
                  TrackingPage.jobs_res := Js.Fulfilled (Some [Some 5%nat]) |}]).
  { repeat constructor. }
  split; [exact Hall |].
  exact (proj1 (proj2 (proj2 (proj2
           (failed_fetches_change_nothing id id id TrackingPage.unmounted _ Hall))))).
Defined.

(** ** firebase.ts: upserts seen through the snapshot listeners *)

Section Snapshots.
Import Js Firestore Firebase Subscriptions.

Lemma elem_of_collection_docs (col id : string) (fs : fields) (d : db) :
  (id, fs) ∈ collection_docs col d <-> d !! [col; id] = Some fs.
Proof.
  unfold collection_docs. rewrite list_elem_of_omap. split.
  - intros ([ref f] & Hin & Heq). apply elem_of_map_to_list in Hin.
    simpl in Heq. destruct ref as [| c [| i [| ? ?]]]; try done.
    destruct (String.eqb_spec c col) as [-> |]; [| done].
    by injection Heq as -> ->.
  - intros H. exists ([col; id], fs). split; [by apply elem_of_map_to_list |].
    simpl. by rewrite String.eqb_refl.
Qed.

Lemma collections_are_ids :
  is_document_id DRIVER_LOCATIONS_COL = true
  /\ is_document_id ACTIVE_DELIVERIES_COL = true.
Proof. split; reflexivity. Qed.

(** What a committed upsert stores, under the reference its id resolves
    to. *)
Lemma upsert_stored (col id_field : string) (data : fields) (now : Z) (d : db)
    (ref : doc_ref) :
  doc col (data !! id_field) = Normal ref ->
  fst (async_stmt (upsert_body col id_field data (Committed now)) d)
  = <[ ref := (resolve now <$> with_updated_at data)
              ∪ default ∅ (d !! ref) ]> d.
Proof.
  intros Hdoc. by rewrite upsert_body_cases, Hdoc.
Qed.

Lemma upsert_effect (col id_field : string) (data : fields) (o : write_outcome)
    (d : db) :
  fst (async_stmt (upsert_body col id_field data o) d) = d
  \/ exists (ref : doc_ref) (now : Z),
       doc col (data !! id_field) = Normal ref /\ o = Committed now
       /\ fst (async_stmt (upsert_body col id_field data o) d)
          = <[ ref := (resolve now <$> with_updated_at data)
                      ∪ default ∅ (d !! ref) ]> d.
Proof.
  rewrite upsert_body_cases.
  destruct (doc col (data !! id_field)) as [ref | e] eqn:Hdoc; [| by left].
  destruct o as [now | e]; [| by left].
  right. by exists ref, now.
Qed.

(** A field of the data other than [updated_at] is stored as written when
    it is a string. *)
Lemma written_string (data old : fields) (now : Z) (key s : string) :
  key <> "updated_at" ->
  data !! key = Some (VString s) ->
  ((resolve now <$> with_updated_at data) ∪ old) !! key = Some (VString s).
Proof.
  intros Hne Hdata. apply lookup_union_Some_l. rewrite lookup_fmap.
  unfold with_updated_at. rewrite lookup_insert_ne by done. by rewrite Hdata.
Qed.

Lemma upsert_keeps_keyed (col id_field col' id_field' : string) (data : fields)
    (o : write_outcome) (d : db) :
  is_document_id col = true ->
  id_field <> "updated_at" ->
  (col = col' -> id_field = id_field') ->
  keyed col' id_field' d ->
  keyed col' id_field' (fst (async_stmt (upsert_body col id_field data o) d)).
Proof.
  intros Hcol Hfield Hsame Hkeyed.
  destruct (upsert_effect col id_field data o d)
    as [-> | (ref & now & Hdoc & -> & ->)]; [exact Hkeyed |].
  intros ref' fs Hlook Hhead.
  destruct (decide (ref = ref')) as [<- | Hne].
  - rewrite lookup_insert_eq in Hlook. injection Hlook as <-.
    destruct (doc_Normal col _ ref Hcol Hdoc) as (s & rest & Hdata & _ & ->).
    simpl in Hhead. injection Hhead as <-.
    rewrite <- (Hsame eq_refl).
    rewrite (written_string data _ now id_field s Hfield Hdata).
    by rewrite <- Hdata.
  - rewrite lookup_insert_ne in Hlook by done. by apply Hkeyed.
Qed.

Lemma keyed_own_id (col id_field x : string) (fs : fields) (d : db) :
  is_document_id col = true ->
  keyed col id_field d ->
  d !! [col; x] = Some fs ->
  exists id : string,
    fs !! id_field = Some (VString id)
    /\ doc col (Some (VString id)) = Normal [col; x]
    /\ (has_slash id = false -> id = x).
Proof.
  intros Hcol Hkeyed Hlook.
  pose proof (Hkeyed [col; x] fs Hlook eq_refl) as Hdoc.
  destruct (doc_Normal col _ _ Hcol Hdoc) as (id & rest & Hid & _ & _).
  exists id. rewrite Hid in Hdoc. repeat split; [done | done |].
  intros Hplain.
  destruct (doc_plain col id _ Hcol Hplain Hdoc) as [_ Href].
  by injection Href as ->.
Qed.

(** However the two upserts are called, with whatever data and whatever
    fate of each write, every document under [driver_locations] holds in
    [driver_id] a string that [doc] resolves to that very document, and
    every document under [active_deliveries] holds such a [delivery_id];
    when that string has no '/', it is the document's own id.  (An id
    written as "a/" lands in document "a", which then holds "a/".) *)
Theorem documents_keyed_by_own_id :
  forall writes : list write,
    let d := fold_left apply_write writes ∅ in
    (keyed DRIVER_LOCATIONS_COL "driver_id" d
     /\ keyed ACTIVE_DELIVERIES_COL "delivery_id" d)
    /\ (forall (x : string) (fs : fields),
           d !! [DRIVER_LOCATIONS_COL; x] = Some fs ->
           exists id : string,
             fs !! "driver_id" = Some (VString id)
             /\ doc DRIVER_LOCATIONS_COL (Some (VString id))
                = Normal [DRIVER_LOCATIONS_COL; x]
             /\ (has_slash id = false -> id = x))
    /\ (forall (x : string) (fs : fields),
           d !! [ACTIVE_DELIVERIES_COL; x] = Some fs ->
           exists id : string,
             fs !! "delivery_id" = Some (VString id)
             /\ doc ACTIVE_DELIVERIES_COL (Some (VString id))
                = Normal [ACTIVE_DELIVERIES_COL; x]
             /\ (has_slash id = false -> id = x)).
Proof.
  intros writes d.
  assert (H : forall d0 : db,
             keyed DRIVER_LOCATIONS_COL "driver_id" d0
             /\ keyed ACTIVE_DELIVERIES_COL "delivery_id" d0 ->
             keyed DRIVER_LOCATIONS_COL "driver_id" (fold_left apply_write writes d0)
             /\ keyed ACTIVE_DELIVERIES_COL "delivery_id"
                  (fold_left apply_write writes d0)).
  { induction writes as [| w writes IH]; intros d0 [H1 H2]; [done |].
    simpl. apply IH. destruct w as [data o | data o]; simpl;
      unfold updateDriverLocation, upsertActiveDelivery;
      split; apply upsert_keeps_keyed; done. }
  assert (Hd : keyed DRIVER_LOCATIONS_COL "driver_id" d
               /\ keyed ACTIVE_DELIVERIES_COL "delivery_id" d).
  { apply H. split; intros ref fs Hl; by rewrite lookup_empty in Hl. }
  destruct Hd as [Hdrivers Hdeliveries].
  split; [by split |]. split; intros x fs Hlook.
  - by apply (keyed_own_id DRIVER_LOCATIONS_COL "driver_id" x fs d).
  - by apply (keyed_own_id ACTIVE_DELIVERIES_COL "delivery_id" x fs d).
Qed.

(** Round trip.  When the SDK takes the delivery id for a document, a
    committed [upsertActiveDelivery] is followed by the listener of that
    delivery receiving a document that holds every field written (the
    server's commit time in place of [updated_at]) and the delivery id.
    When the SDK refuses the id (the empty string, "a/b"), the upsert
    returns false and writes nothing, and subscribing throws. *)
Theorem delivery_round_trip :
  forall (data : fields) (id : string) (now : Z) (d : db),
    data !! "delivery_id" = Some (VString id) ->
    let after := upsertActiveDelivery data (Committed now) d in
    match doc ACTIVE_DELIVERIES_COL (Some (VString id)) with
    | Normal _ =>
        snd after = Fulfilled true
        /\ exists received,
             delivery_snapshot id (fst after) = Normal (Some received)
             /\ received !! "delivery_id" = Some (VString id)
             /\ received !! "updated_at" = Some (VTimestamp now)
             /\ forall (key : string) (v : value),
                  data !! key = Some v -> key <> "updated_at" ->
                  received !! key = Some (resolve now v)
    | Throw e =>
        after = (d, Fulfilled false)
        /\ delivery_snapshot id (fst after) = Throw e
    end.
Proof.
  intros data id now d Hdata after. subst after.
  unfold upsertActiveDelivery, delivery_snapshot.
  rewrite upsert_body_cases, Hdata.
  destruct (doc ACTIVE_DELIVERIES_COL (Some (VString id))) as [ref | e];
    [| by split].
  split; [reflexivity |]. simpl. rewrite lookup_insert_eq. simpl.
  eexists. split; [reflexivity |].
  assert (Hwritten : forall key v, data !! key = Some v -> key <> "updated_at" ->
            ((resolve now <$> with_updated_at data)
             ∪ default ∅ (d !! ref)) !! key
            = Some (resolve now v)).
  { intros key v Hk Hne. apply lookup_union_Some_l. rewrite lookup_fmap.
    unfold with_updated_at. rewrite lookup_insert_ne by done. by rewrite Hk. }
  unfold with_delivery_id. repeat split.
  - apply lookup_union_Some_l. by apply (Hwritten _ _ Hdata).
  - apply lookup_union_Some_l, lookup_union_Some_l. apply written_updated_at.
  - intros key v Hk Hne. apply lookup_union_Some_l. by apply Hwritten.
Qed.

Lemma delivery_round_trip_witness :
  ({[ "delivery_id" := VString "ord_9"; "status" := VString "assigned" ]}
     : fields) !! "delivery_id" = Some (VString "ord_9")
  /\ exists received,
       delivery_snapshot "ord_9"
         (fst (upsertActiveDelivery
                 {[ "delivery_id" := VString "ord_9";
                    "status" := VString "assigned" ]} (Committed 5) ∅))
       = Normal (Some received)
       /\ received !! "status" = Some (VString "assigned").
Proof.
  assert (Hdata : ({[ "delivery_id" := VString "ord_9";
                      "status" := VString "assigned" ]} : fields)
                  !! "delivery_id" = Some (VString "ord_9")) by reflexivity.
  split; [exact Hdata |].
  destruct (proj2 (delivery_round_trip _ "ord_9" 5 ∅ Hdata))
    as (received & Hsnap & _ & _ & Hfields).
  exists received. split; [exact Hsnap |].
  exact (Hfields "status" (VString "assigned") eq_refl ltac:(discriminate)).
Defined.

(** The active-deliveries listener shows a delivery exactly while its
    status is assigned, picked_up or in_transit: after a committed upsert
    with a document id (a non-empty string without '/') and status [s],
    into a database whose documents hold ids that resolve to them, the
    delivery is in the snapshot if and only if [s] is one of the three, so
    a delivery marked delivered drops out of it. *)
Theorem active_snapshot_follows_status :
  forall (data : fields) (id s : string) (now : Z) (d : db),
    keyed ACTIVE_DELIVERIES_COL "delivery_id" d ->
    is_document_id id = true ->
    data !! "delivery_id" = Some (VString id) ->
    data !! "status" = Some (VString s) ->
    let d' := fst (upsertActiveDelivery data (Committed now) d) in
    (exists shown, shown ∈ active_deliveries_snapshot d'
                   /\ shown !! "delivery_id" = Some (VString id))
    <-> s ∈ ACTIVE_STATUSES.
Proof.
  intros data id s now d Hkeyed Hid Hdata Hstatus d'.
  destruct collections_are_ids as [_ Hcol].
  assert (Hdoc : doc ACTIVE_DELIVERIES_COL (data !! "delivery_id")
                 = Normal [ACTIVE_DELIVERIES_COL; id]).
  { rewrite Hdata. by apply doc_string. }
  assert (Hkeyed' : keyed ACTIVE_DELIVERIES_COL "delivery_id" d').
  { subst d'. unfold upsertActiveDelivery. by apply upsert_keeps_keyed. }
  assert (Hstored : exists stored,
             d' !! [ACTIVE_DELIVERIES_COL; id] = Some stored
             /\ stored !! "status" = Some (VString s)
             /\ stored !! "delivery_id" = Some (VString id)).
  { subst d'. unfold upsertActiveDelivery.
    rewrite (upsert_stored _ _ _ _ _ _ Hdoc). rewrite lookup_insert_eq.
    eexists. split; [reflexivity |].
    split; by apply written_string. }
  destruct Hstored as (stored & Hlook & Hst & Hown).
  unfold active_deliveries_snapshot. split.
  - intros (shown & Hin & Hshown).
    apply list_elem_of_fmap in Hin as ([id' fs'] & -> & Hin).
    apply list_elem_of_filter in Hin as [Hactive Hin].
    apply elem_of_collection_docs in Hin. simpl in *.
    assert (id' = id) as ->.
    { destruct (keyed_own_id _ _ _ _ _ Hcol Hkeyed' Hin)
        as (held & Hheld & Hresolves & _).
      unfold with_delivery_id in Hshown.
      rewrite (lookup_union_Some_l _ _ _ _ Hheld) in Hshown.
      injection Hshown as ->.
      rewrite (doc_string _ id Hcol Hid) in Hresolves.
      by injection Hresolves as ->. }
    rewrite Hlook in Hin. injection Hin as <-.
    unfold status_in in Hactive. rewrite Hst in Hactive.
    by apply bool_decide_eq_true in Hactive.
  - intros Hs. exists (with_delivery_id id stored). split.
    + apply list_elem_of_fmap. exists (id, stored). split; [done |].
      apply list_elem_of_filter. split.
      * simpl. unfold status_in. rewrite Hst. by apply bool_decide_eq_true.
      * by apply elem_of_collection_docs.
    + unfold with_delivery_id. by apply lookup_union_Some_l.
Qed.

Lemma active_snapshot_follows_status_witness :
  keyed ACTIVE_DELIVERIES_COL "delivery_id" ∅
  /\ is_document_id "ord_9" = true
  /\ ~ (exists shown,
          shown ∈ active_deliveries_snapshot
                    (fst (upsertActiveDelivery
                            {[ "delivery_id" := VString "ord_9";
                               "status" := VString "delivered" ]}
                            (Committed 5) ∅))
          /\ shown !! "delivery_id" = Some (VString "ord_9")).
Proof.
  assert (Hkeyed : keyed ACTIVE_DELIVERIES_COL "delivery_id" ∅).
  { intros ref fs Hl. by rewrite lookup_empty in Hl. }
  assert (Hid : is_document_id "ord_9" = true) by reflexivity.
  assert (Hdata : ({[ "delivery_id" := VString "ord_9";
                      "status" := VString "delivered" ]} : fields)
                  !! "delivery_id" = Some (VString "ord_9")) by reflexivity.
  assert (Hstatus : ({[ "delivery_id" := VString "ord_9";
                        "status" := VString "delivered" ]} : fields)
                    !! "status" = Some (VString "delivered")) by reflexivity.
  split; [exact Hkeyed |]. split; [exact Hid |].
  intros Hshown.
  apply (proj1 (active_snapshot_follows_status _ "ord_9" "delivered" 5 ∅
                  Hkeyed Hid Hdata Hstatus)) in Hshown.
  unfold ACTIVE_STATUSES in Hshown.
  repeat (apply elem_of_cons in Hshown as [Hshown | Hshown]; [discriminate |]).
  by apply elem_of_nil in Hshown.
Defined.

End Snapshots.

(** ** More on the driver simulation *)

Section TelemetryMore.
Import Js Firestore Firebase.
#[local] Open Scope float_scope.

Variable atan2 : float -> float -> float.
Variables (driverId driverName : string).
Variables (pickupLat pickupLng dropoffLat dropoffLng : float).

Abbreviation sim_run :=
  (run atan2 driverId driverName pickupLat pickupLng dropoffLat dropoffLng).
Abbreviation sim_callback :=
  (callback atan2 driverId driverName pickupLat pickupLng dropoffLat dropoffLng).

(** The update at position [i] of a run comes from the [i]-th tick and its
    random draw: updates are only ever missing at the end. *)
Lemma run_aligned (randoms : list float) :
  forall (k i : nat) (u : DriverUpdate),
    snd (sim_run randoms (after k)) !! i = Some u ->
    (k + i < 50)%nat
    /\ exists r, randoms !! i = Some r
                 /\ u = snd (sim_callback r (after (k + i))).
Proof.
  induction randoms as [| r rest IH]; intros k i u.
  - cbn [run snd]. intros Hi. by rewrite lookup_nil in Hi.
  - specialize (IH (S k)). cbn [run]. rewrite tick_cases.
    destruct (interval (after k)) eqn:Hint; rewrite interval_after in Hint.
    + apply Nat.ltb_lt in Hint. rewrite <- (after_advance k Hint).
      destruct (sim_run rest (after (S k))) as [s2 outs]. cbn [fst snd] in *.
      destruct i as [| j]; intros Hu.
      * injection Hu as <-. rewrite Nat.add_0_r. split; [lia | eauto].
      * destruct (IH j u Hu) as (Hlt & r' & Hr' & ->).
        replace (k + S j)%nat with (S k + j)%nat by lia.
        split; [lia | eauto].
    + apply Nat.ltb_ge in Hint. rewrite <- (after_stuck k Hint).
      destruct (sim_run rest (after (S k))) as [s2 outs]. cbn [fst snd] in *.
      intros Hu. destruct (IH i u Hu) as (Hlt & _). lia.
Qed.

Lemma moving_before_last_tick :
  forallb (fun n => lt (progress (after n)) 1) (List.seq 1 49) = true
  /\ lt (progress (after 50)) 1 = false.
Proof. split; vm_compute; reflexivity. Qed.

(** For any endpoints, any driver and any number of ticks: the simulation
    emits one update per tick for the first fifty ticks and none after;
    every update carries the same heading and the same driver fields; the
    update of tick n interpolates both coordinates with the progress after
    n ticks; the fiftieth has speed 0 and every earlier one has speed
    25 + 10 * (that tick's random draw). *)
Theorem simulation_updates :
  forall randoms : list float,
    let updates := snd (sim_run randoms start) in
    length updates = Nat.min (length randoms) 50
    /\ forall (i : nat) (u : DriverUpdate),
         updates !! i = Some u ->
         exists r,
           randoms !! i = Some r
           /\ heading u
              = normalize (raw_heading atan2 pickupLat pickupLng
                             dropoffLat dropoffLng)
           /\ driver_id u = driverId
           /\ driver_name u = driverName
           /\ current_order_id u = "order_" +:+ driverId
           /\ vehicle_type u = "bike"
           /\ is_available u = false
           /\ lat u = lerp pickupLat dropoffLat (progress (after (S i)))
           /\ lng u = lerp pickupLng dropoffLng (progress (after (S i)))
           /\ speed u = (if (i <? 49)%nat then 25 + r * 10 else 0).
Proof.
  intros randoms updates. split.
  - destruct (run_after atan2 driverId driverName pickupLat pickupLng
                dropoffLat dropoffLng randoms 0) as (_ & Hlen & _).
    change (after 0) with start in Hlen. fold updates in Hlen.
    rewrite Hlen. simpl. lia.
  - intros i u Hu.
    destruct (run_aligned randoms 0 i u Hu) as (Hlt & r & Hr & ->).
    simpl in Hlt. exists r. split; [exact Hr |].
    change (0 + i)%nat with i.
    rewrite (after_advance i Hlt). cbn [callback snd heading driver_id
      driver_name current_order_id vehicle_type is_available lat lng speed].
    repeat split.
    rewrite <- (after_advance i Hlt).
    destruct moving_before_last_tick as [Hmoving Hlast].
    destruct (Nat.ltb_spec i 49) as [Hi | Hi].
    + rewrite forallb_forall in Hmoving.
      rewrite (Hmoving (S i)); [reflexivity | apply in_seq; lia].
    + replace (S i) with 50%nat by lia. by rewrite Hlast.
Qed.

(** The disposer cancels for good: once it has been called no tick emits
    an update, however many follow, and calling it again changes nothing. *)
Theorem disposer_cancels :
  forall (randoms : list float) (s : sim),
    sim_run randoms (dispose s) = (dispose s, [])
    /\ dispose (dispose s) = dispose s.
Proof.
  intros randoms s. split; [| reflexivity].
  induction randoms as [| r rest IH]; [reflexivity |].
  cbn [run]. rewrite tick_cases. cbn [dispose interval]. fold (dispose s).
  by rewrite IH.
Qed.

End TelemetryMore.

(** ** More on the request interceptor *)

Section InterceptorMore.
Import Js Api.

(** The interceptor touches nothing but the Authorization header: the URL,
    the method and every other header go through unchanged; without a
    usable token the whole configuration does; and running it twice is the
    same as running it once. *)
Theorem interceptor_only_sets_authorization :
  forall (ls : LocalStorage.t) (config : request_config),
    baseURL (auth_interceptor ls config) = baseURL config
    /\ url (auth_interceptor ls config) = url config
    /\ method (auth_interceptor ls config) = method config
    /\ (forall key : string,
           key <> "Authorization" ->
           headers (auth_interceptor ls config) !! key = headers config !! key)
    /\ (truthy_string (LocalStorage.getItem ls "token") = false ->
        auth_interceptor ls config = config)
    /\ auth_interceptor ls (auth_interceptor ls config)
       = auth_interceptor ls config.
Proof.
  intros ls config. unfold auth_interceptor.
  destruct (LocalStorage.getItem ls "token") as [tok |]; [| done].
  destruct (truthy_string (Some tok)); [| done]. simpl.
  repeat split; [| done |].
  - intros key Hne. by rewrite lookup_insert_ne.
  - by rewrite insert_insert_eq.
Qed.

End InterceptorMore.

(** ** store.ts and App.tsx: who gets past the route guard *)

Section Guard.
Import Js AuthStore AppGuard.

(** After a logout every guarded route redirects to the login page,
    whatever roles it allows, and [hasRole] is false for every role. *)
Theorem logout_locks_every_route :
  forall (w : world) (cloud : Appwrite.sdk_call)
         (allowedRoles : option (list role)) (roles : list role),
    let a := auth (fst (logout cloud w)) in
    ProtectedRoute allowedRoles a = Navigate "/login"
    /\ hasRole roles a = false.
Proof. intros w cloud allowedRoles roles. by destruct cloud. Qed.

(** After a login the guard goes by the user's role: a route without
    [allowedRoles] (the dashboard itself among them) is rendered, a
    restricted route is rendered exactly when [hasRole] holds for its roles
    and redirects to the dashboard otherwise; [hasRole] holds exactly for
    role lists that contain the user's role. *)
Theorem login_guards_by_role :
  forall (w : world) (u : User) (tok : string) (roles : list role),
    let a := auth (fst (login u tok w)) in
    ProtectedRoute None a = Children
    /\ ProtectedRoute (Some roles) a
       = (if hasRole roles a then Children else Navigate "/dashboard")
    /\ (hasRole roles a = true <-> user_role u ∈ roles)
    /\ (ProtectedRoute (Some [restaurant; admin]) a = Children
        <-> user_role u = restaurant \/ user_role u = admin).
Proof.
  intros w u tok roles a. subst a. simpl.
  unfold ProtectedRoute, hasRole. simpl.
  split; [done |]. split; [by case_bool_decide |].
  split; [apply bool_decide_eq_true |].
  rewrite bool_decide_decide.
  destruct (decide (user_role u ∈ [restaurant; admin])) as [H | H];
    rewrite !elem_of_cons, elem_of_nil in H; simpl.
  - split; [intros _; tauto | done].
  - split; [done | tauto].
Qed.

(** On a page load with a stored token the store is authenticated but has
    no user yet, and until the user is loaded the guard checks no role:
    every restricted route is rendered, even one that allows no role at
    all, while [hasRole] answers false. *)
Theorem reload_skips_role_check :
  forall (ls : LocalStorage.t) (tok : string) (roles : list role),
    LocalStorage.getItem ls "token" = Some tok ->
    tok <> "" ->
    let a := auth (page_load ls) in
    isAuthenticated a = true
    /\ user a = None
    /\ ProtectedRoute (Some roles) a = Children
    /\ hasRole roles a = false.
Proof.
  intros ls tok roles Htok Hne a. subst a.
  unfold page_load, initial, ProtectedRoute, hasRole. simpl.
  rewrite Htok. simpl.
  destruct (String.eqb_spec tok ""); [done |]. done.
Qed.

Lemma reload_skips_role_check_witness :
  LocalStorage.getItem (LocalStorage.setItem ∅ "token" "abc") "token" = Some "abc"
  /\ "abc" <> ""
  /\ ProtectedRoute (Some [])
       (auth (page_load (LocalStorage.setItem ∅ "token" "abc"))) = Children.
Proof.
  assert (H1 : LocalStorage.getItem (LocalStorage.setItem ∅ "token" "abc") "token"
               = Some "abc") by reflexivity.
  assert (H2 : "abc" <> "") by discriminate.
  split; [exact H1 |]. split; [exact H2 |].
  exact (proj1 (proj2 (proj2
           (reload_skips_role_check _ "abc" [] H1 H2)))).
Defined.

(** [AuthLoader] settles a page load with a stored token: when [me()]
    returns the user, the user is set, storage is untouched and the guard
    goes by the user's role from then on; when [me()] fails, the token is
    removed from storage and every guarded route redirects to the login
    page. *)
Theorem auth_loader_settles_reload :
  forall (ls : LocalStorage.t) (tok : string) (me : settled User)
         (cloud : Appwrite.sdk_call) (allowedRoles : option (list role)),
    LocalStorage.getItem ls "token" = Some tok ->
    tok <> "" ->
    let w := fst (AuthLoader me cloud (page_load ls)) in
    snd (AuthLoader me cloud (page_load ls)) = Normal tt
    /\ match me with
       | Fulfilled u =>
           storage w = ls
           /\ user (auth w) = Some u
           /\ token (auth w) = Some tok
           /\ ProtectedRoute allowedRoles (auth w)
              = match allowedRoles with
                | Some roles =>
                    if bool_decide (user_role u ∈ roles)
                    then Children else Navigate "/dashboard"
                | None => Children
                end
       | Rejected _ =>
           LocalStorage.getItem (storage w) "token" = None
           /\ user (auth w) = None
           /\ ProtectedRoute allowedRoles (auth w) = Navigate "/login"
       end.
Proof.
  intros ls tok me cloud allowedRoles Htok Hne w. subst w.
  unfold AuthLoader, page_load, initial. simpl. rewrite Htok. simpl.
  destruct (String.eqb_spec tok ""); [done |]. simpl.
  destruct me as [u | e].
  - simpl. split; [done |]. unfold ProtectedRoute. simpl.
    repeat split. destruct allowedRoles as [roles |]; [| done].
    by case_bool_decide.
  - destruct cloud; simpl; (split; [done |]);
      unfold LocalStorage.getItem, LocalStorage.removeItem;
      rewrite lookup_delete_eq; done.
Qed.

Lemma auth_loader_settles_reload_witness :
  LocalStorage.getItem (LocalStorage.setItem ∅ "token" "abc") "token" = Some "abc"
  /\ "abc" <> ""
  /\ snd (AuthLoader (Rejected "401") Appwrite.SdkFulfils
            (page_load (LocalStorage.setItem ∅ "token" "abc"))) = Normal tt.
Proof.
  assert (H1 : LocalStorage.getItem (LocalStorage.setItem ∅ "token" "abc") "token"
               = Some "abc") by reflexivity.
  assert (H2 : "abc" <> "") by discriminate.
  split; [exact H1 |]. split; [exact H2 |].
  exact (proj1 (auth_loader_settles_reload _ "abc" (Rejected "401")
                  Appwrite.SdkFulfils None H1 H2)).
Defined.

End Guard.

(** ** appwrite.ts: register and login *)

Section AppwriteCalls.
Import Js AppwriteAuth.
Context {S U : Type}.

(** [register] never rejects; it makes its three SDK calls in order and
    stops at the first that fails, reporting that call's message; it
    reports success, with the user and the role asked for, exactly when all
    three went through.  A failure of the session or preferences call is
    reported although [account.create] had already gone through. *)
Theorem register_stops_at_first_failure :
  forall (role : string) (create : settled U) (session prefs : settled unit)
         (log : calls),
    register role create session prefs log
    = ((log ++ calls_made ("account.create",
                           "account.createEmailPasswordSession",
                           "account.updatePrefs") create session prefs)%list,
       Fulfilled
         match create with
         | Rejected e => Failure e
         | Fulfilled user =>
             match session with
             | Rejected e => Failure e
             | Fulfilled _ =>
                 match prefs with
                 | Rejected e => Failure e
                 | Fulfilled _ => Success (user, role)
                 end
             end
         end).
Proof.
  intros role create session prefs log.
  unfold register, async_stmt, try_stmt, bind_stmt, call, ret.
  destruct create, session, prefs; simpl;
    rewrite <- ?app_assoc; reflexivity.
Qed.

(** [login] never rejects; it asks for the session, the account and the
    preferences in that order and stops at the first failure; on success
    the role is the stored preference, or 'restaurant' when none is stored
    or it is empty. *)
Theorem login_defaults_role :
  forall (session : settled S) (get : settled U)
         (prefs : settled (option string)) (log : calls),
    login session get prefs log
    = ((log ++ calls_made ("account.createEmailPasswordSession",
                           "account.get", "account.getPrefs")
                  session get prefs)%list,
       Fulfilled
         match session with
         | Rejected e => Failure e
         | Fulfilled s =>
             match get with
             | Rejected e => Failure e
             | Fulfilled user =>
                 match prefs with
                 | Rejected e => Failure e
                 | Fulfilled (Some r) =>
                     Success (user, if String.eqb r "" then "restaurant" else r, s)
                 | Fulfilled None => Success (user, "restaurant", s)
                 end
             end
         end).
Proof.
  intros session get prefs log.
  unfold login, async_stmt, try_stmt, bind_stmt, call, ret.
  destruct session, get, prefs as [[r |] |]; simpl;
    rewrite <- ?app_assoc; try reflexivity.
  by destruct (String.eqb r "").
Qed.

End AppwriteCalls.

(** ** The login page *)

Section LoginFacts.
Import Js AuthStore AppwriteAuth LoginPage.
Context {Session Account : Type}.
Variable detail : error -> option string.

Lemma cloud_sync_frame :
  forall (userRole : string) (o : sync Session Account) (p : page),
    exists log : calls,
      cloud_sync userRole o p
      = ({| store := store p; loading := loading p; toasts := toasts p;
            navigated := navigated p; sdk_calls := log |}, Normal tt).
Proof.
  intros userRole o p. unfold cloud_sync.
  destruct (AppwriteAuth.login _ _ _ _) as [log1 aw]. eauto.
Qed.

(** Once the API accepts the credentials the login goes through,
    whatever the Appwrite sync beside it does: the token is stored and the
    store holds the user as authenticated, the welcome toast is shown, the
    router is sent to /dashboard, the button is released, and nothing is
    thrown. *)
Theorem cloud_sync_cannot_fail_login :
  forall (data : login_data) (o : sync Session Account) (p : page),
    let after := handleLogin detail (Fulfilled data) o p in
    snd after = Normal tt /\
    store (fst after)
    = fst (AuthStore.login (res_user data) (access_token data) (store p)) /\
    LocalStorage.getItem (storage (store (fst after))) "token"
    = Some (access_token data) /\
    user (auth (store (fst after))) = Some (res_user data) /\
    isAuthenticated (auth (store (fst after))) = true /\
    navigated (fst after) = Some "/dashboard" /\
    loading (fst after) = false /\
    toasts (fst after)
    = (toasts p
       ++ [ToastSuccess ("Welcome back, " +:+ full_name (res_user data) +:+ "!")])%list.
Proof.
  intros data o p after. subst after.
  unfold handleLogin, finally_stmt, try_stmt, bind_stmt, lift, setLoading,
    in_store, show, navigate. simpl.
  destruct (cloud_sync_frame (role_name (user_role (res_user data))) o
              {| store := {| storage := LocalStorage.setItem (storage (store p))
                                          "token" (access_token data);
                             auth := {| user := Some (res_user data);
                                        token := Some (access_token data);
                                        isAuthenticated := true;
                                        roleDashboardData :=
                                          roleDashboardData (auth (store p)) |};
                             unhandled := unhandled (store p) |};
                 loading := true; toasts := toasts p;
                 navigated := navigated p; sdk_calls := sdk_calls p |})
    as [log Hsync].
  simpl in Hsync. rewrite Hsync. simpl.
  repeat split.
  unfold LocalStorage.getItem, LocalStorage.setItem. by simplify_map_eq.
Qed.

(** When the API rejects the credentials nothing of the session
    changes: the store and the storage are as before, the router is not
    sent anywhere, no Appwrite call is made, one error toast is shown (the
    server's detail, or the default text when there is none or it is
    empty), and the button is released. *)
Theorem rejected_login_changes_no_session :
  forall (e : error) (o : sync Session Account) (p : page),
    let after := handleLogin detail (Rejected e) o p in
    snd after = Normal tt /\
    store (fst after) = store p /\
    navigated (fst after) = navigated p /\
    sdk_calls (fst after) = sdk_calls p /\
    loading (fst after) = false /\
    toasts (fst after)
    = (toasts p
       ++ [ToastError match detail e with
                      | Some d => if String.eqb d ""
                                  then "Login failed. Please check credentials."
                                  else d
                      | None => "Login failed. Please check credentials."
                      end])%list.
Proof.
  intros e o p after. subst after.
  unfold handleLogin, finally_stmt, try_stmt, bind_stmt, lift, setLoading,
    show, error_message. simpl.
  repeat split.
  destruct (detail e) as [d|]; [|reflexivity].
  simpl. destruct (String.eqb d ""); reflexivity.
Qed.

(** After an accepted login the page makes the three Appwrite login
    calls, stopping at the first that fails, and goes on to register the
    account exactly when one of them failed; the registration too stops at
    its first failing call. *)
Theorem sync_registers_after_failed_cloud_login :
  forall (data : login_data) (o : sync Session Account) (p : page),
    sdk_calls (fst (handleLogin detail (Fulfilled data) o p))
    = (sdk_calls p
       ++ calls_made ("account.createEmailPasswordSession",
                      "account.get", "account.getPrefs")
            (login_session o) (login_get o) (login_prefs o)
       ++ match login_session o, login_get o, login_prefs o with
          | Fulfilled _, Fulfilled _, Fulfilled _ => []
          | _, _, _ =>
              calls_made ("account.create",
                          "account.createEmailPasswordSession",
                          "account.updatePrefs")
                (register_create o) (register_session o) (register_prefs o)
          end)%list.
Proof.
  intros data o p.
  unfold handleLogin, finally_stmt, try_stmt, bind_stmt, lift, setLoading,
    in_store, show, navigate, cloud_sync. simpl.
  unfold AppwriteAuth.login, AppwriteAuth.register, async_stmt, try_stmt,
    bind_stmt, call, ret.
  destruct (login_session o), (login_get o), (login_prefs o);
    destruct (register_create o), (register_session o), (register_prefs o);
    simpl; rewrite <- ?app_assoc; simpl; rewrite ?app_nil_r; reflexivity.
Qed.

End LoginFacts.

(** ** The Impact page *)

Section ImpactFacts.
Import Js View Rows ImpactPage.
Context {Look : Type}.

Lemma truthy_is_number :
  forall v : float, SurplusForm.truthy_number v = true -> PrimFloat.eqb v v = true.
Proof.
  intros v. unfold SurplusForm.truthy_number.
  destruct (PrimFloat.eqb v 0), (PrimFloat.eqb v v); simpl; congruence.
Qed.

Lemma or_else_truthy :
  forall (x : option float) (fallback : float),
    SurplusForm.truthy_number fallback = true ->
    SurplusForm.truthy_number (or_else x fallback) = true.
Proof.
  intros [v|] fallback H; simpl; [|exact H].
  destruct (SurplusForm.truthy_number v) eqn:Hv; [exact Hv | exact H].
Qed.

Lemma or_else_number :
  forall (x : option float) (fallback : float),
    PrimFloat.eqb fallback fallback = true ->
    PrimFloat.eqb (or_else x fallback) (or_else x fallback) = true.
Proof.
  intros [v|] fallback H; simpl; [|exact H].
  destruct (SurplusForm.truthy_number v) eqn:Hv; [|exact H].
  apply truthy_is_number, Hv.
Qed.

Lemma refresh_stat_keeps :
  forall (d : figures) (s : stat Look),
    label (refresh_stat d s) = label s /\
    look (refresh_stat d s) = look s /\
    (SurplusForm.truthy_number (value s) = true ->
     SurplusForm.truthy_number (value (refresh_stat d s)) = true).
Proof.
  intros d s. unfold refresh_stat.
  repeat (match goal with
          | |- context [if ?b then _ else _] => destruct b
          end);
    simpl; repeat split; auto using or_else_truthy.
Qed.

(** The stat cards never lose a figure: whatever the two requests
    return, [fetchImpact] throws nothing, keeps the cards, their labels,
    order and looks, and leaves every card a value that is neither zero nor
    NaN, provided the cards had such values before.  A zero or missing
    figure of the API leaves the card's value as it was. *)
Theorem stat_cards_stay_filled :
  forall (r : responses) (s : state Look),
    Forall (fun c => SurplusForm.truthy_number (value c) = true) (stats s) ->
    let after := fetchImpact r s in
    snd after = Normal tt /\
    label <$> stats (fst after) = label <$> stats s /\
    look <$> stats (fst after) = look <$> stats s /\
    Forall (fun c => SurplusForm.truthy_number (value c) = true)
           (stats (fst after)).
Proof.
  intros r s Hs after. subst after.
  assert (Hmap : forall d : figures,
             label <$> (refresh_stat d <$> stats s) = label <$> stats s /\
             look <$> (refresh_stat d <$> stats s) = look <$> stats s /\
             Forall (fun c => SurplusForm.truthy_number (value c) = true)
                    (refresh_stat d <$> stats s)).
  { intros d. induction Hs as [|c l Hc Hl IH]; [repeat split; constructor|].
    destruct IH as (IH1 & IH2 & IH3).
    destruct (refresh_stat_keeps d c) as (E1 & E2 & E3).
    rewrite !fmap_cons, E1, E2, IH1, IH2.
    repeat split. constructor; auto. }
  unfold fetchImpact, try_stmt, bind_stmt, lift, ret.
  destruct (dashboard_res r) as [[d|]|e], (history_res r) as [[| |[|h rest]|]|e'];
    cbn -[imap_rows all_objects objects];
    rewrite ?imap_rows_cases;
    try destruct (all_objects (h :: rest));
    simpl; try (specialize (Hmap d); tauto); tauto.
Qed.

(** The chart is replaced only by a non-empty array of history rows none
    of which is null; then it has one bar per row, numbered from 1 in the
    rows' order, and no bar holds a NaN.  Any other outcome of the history
    request (a rejection, a body that is no array, an empty array, an
    array with a null row) leaves the chart as it was. *)
Theorem chart_follows_history :
  forall (r : responses) (s : state Look),
    let after := fst (fetchImpact r s) in
    match history_res r with
    | Fulfilled (Array (h :: rest)) =>
        if all_objects (h :: rest)
        then
          length (dailyData after) = length (h :: rest) /\
          forall (i : nat) (d : daily),
            dailyData after !! i = Some d ->
            day d = (i + 1)%nat /\
            PrimFloat.eqb (daily_kg d) (daily_kg d) = true /\
            PrimFloat.eqb (daily_meals d) (daily_meals d) = true /\
            PrimFloat.eqb (daily_co2 d) (daily_co2 d) = true
        else dailyData after = dailyData s
    | _ => dailyData after = dailyData s
    end.
Proof.
  intros r s after. subst after.
  unfold fetchImpact, try_stmt, bind_stmt, lift, ret.
  destruct (history_res r) as [[| |[|h rest]|]|e'];
    destruct (dashboard_res r) as [[d|]|e];
    cbn -[imap_rows all_objects objects]; try reflexivity;
    rewrite imap_rows_cases;
    (destruct (all_objects (h :: rest)) eqn:Hall; [| reflexivity]);
    cbn -[objects];
    (split; [by rewrite length_imap, length_objects |]);
    intros i b Hb;
    rewrite list_lookup_imap in Hb;
    destruct (objects (h :: rest) !! i) as [row|]; simpl in Hb; try discriminate;
    injection Hb as <-; simpl;
    repeat split; repeat apply or_else_number; reflexivity.
Qed.

End ImpactFacts.

(** A first fetch whose dashboard reports no food saved and a failed
    history request. *)
Lemma stat_cards_stay_filled_witness :
  let s := {| ImpactPage.stats := ImpactPage.IMPACT_STATS tt tt tt tt tt tt;
              ImpactPage.dailyData := [] |} in
  let r := {| ImpactPage.dashboard_res :=
                Js.Fulfilled (Some {| ImpactPage.total_kg_saved := Some 0%float;
                                      ImpactPage.total_meals_served := Some 12%float;
                                      ImpactPage.total_co2_saved_kg := None;
                                      ImpactPage.total_water_saved_liters := None;
                                      ImpactPage.total_money_saved_inr := None;
                                      ImpactPage.total_deliveries := None |});
              ImpactPage.history_res := Js.Rejected "Network Error" |} in
  Forall (fun c => SurplusForm.truthy_number (ImpactPage.value c) = true)
         (ImpactPage.stats s) /\
  ImpactPage.value <$> ImpactPage.stats (fst (ImpactPage.fetchImpact r s))
  = [4850; 12; 12125; 4850000; 485000; 650]%float /\
  Forall (fun c => SurplusForm.truthy_number (ImpactPage.value c) = true)
         (ImpactPage.stats (fst (ImpactPage.fetchImpact r s))).
Proof.
  intros s r.
  assert (Hs : Forall (fun c => SurplusForm.truthy_number (ImpactPage.value c) = true)
                      (ImpactPage.stats s)).
  { repeat constructor. }
  split; [exact Hs|]. split; [reflexivity|].
  exact (proj2 (proj2 (proj2 (stat_cards_stay_filled r s Hs)))).
Defined.
